(** * fiaas-deploy-daemon: the pipeline Reporter and the identity metadata

    A shallow embedding of [fiaas_deploy_daemon/pipeline/reporter.py] and of
    the helpers of the test-suite that the properties below rely on.

    Python values are modelled as follows.
    - [unicode]/[str] values are [string]; the deployment id, the callback
      URL, the environment and the infrastructure are strings (a callback
      URL of [None] would be as falsy as the empty string).
    - the dict [Reporter._callback_urls] is a [gmap string string];
      [dict.get] is the map lookup (Python's [None] is Rocq's [None]).
    - the HTTP session is an interface ([Session]) whose [post] may raise;
      every call of [post] is appended to the wire log of the world, so the
      number of notifications issued can be counted whatever the session
      answers.
    - a raised exception is the [Raised] outcome of a computation in the
      monad [Py]. *)

From Stdlib Require Import Ascii String.
From stdpp Require Import base option strings gmap list.

Open Scope string_scope.

(** ** Python's string methods used by the source *)

Module Py_str.

(** [s.startswith(prefix)] *)
Definition startswith (s prefix : string) : bool := String.prefix prefix s.

(** [s.endswith(suffix)]: [s] is [suffix], or the tail of [s] ends with it. *)
Fixpoint endswith (s suffix : string) : bool :=
  String.eqb s suffix ||
  match s with
  | EmptyString => false
  | String _ s' => endswith s' suffix
  end.

(** [s.split(sep)] for a one-character separator: never the empty list. *)
Fixpoint split (sep : ascii) (s : string) : list string :=
  match s with
  | EmptyString => [EmptyString]
  | String c s' =>
      if Ascii.eqb c sep then EmptyString :: split sep s'
      else match split sep s' with
           | [] => [String c EmptyString]
           | w :: ws => String c w :: ws
           end
  end.

(** [sep in s] *)
Fixpoint contains (sep : ascii) (s : string) : bool :=
  match s with
  | EmptyString => false
  | String c s' => Ascii.eqb c sep || contains sep s'
  end.

(** Truth value of a string: the empty string is falsy. *)
Definition truthy (s : string) : bool :=
  match s with EmptyString => false | String _ _ => true end.

End Py_str.

(** ** [posixpath.join] *)

Module posixpath.

(** One round of the loop of [posixpath.join(a, *p)]:
    [[
      if b.startswith('/'):                   path = b
      elif path == '' or path.endswith('/'):  path += b
      else:                                   path += '/' + b
    ]] *)
Definition join_step (path b : string) : string :=
  if Py_str.startswith b "/" then b
  else if String.eqb path "" || Py_str.endswith path "/" then path ++ b
  else path ++ "/" ++ b.

Definition join (a : string) (p : list string) : string :=
  foldl join_step a p.

End posixpath.

(** ** Outcomes and the state-and-exception monad *)

Inductive Exn : Type :=
| KeyError (key : string)
| IndexError
| TypeError
| RequestException (msg : string).

Inductive Outcome (A : Type) : Type :=
| Returned (a : A)
| Raised (e : Exn).
Arguments Returned {A} a.
Arguments Raised {A} e.

Definition Py (W A : Type) : Type := W → Outcome A * W.

Definition py_ret {W A} (a : A) : Py W A := λ w, (Returned a, w).

Definition py_bind {W A B} (m : Py W A) (k : A → Py W B) : Py W B :=
  λ w, match m w with
       | (Returned a, w') => k a w'
       | (Raised e, w') => (Raised e, w')
       end.

Definition py_gets {W A} (f : W → A) : Py W A := λ w, (Returned (f w), w).

Definition py_modify {W} (f : W → W) : Py W unit := λ w, (Returned tt, f w).

Notation "x ←ₚ m ; k" := (py_bind m (λ x, k))
  (at level 100, m at next level, right associativity,
   format "x  ←ₚ  m ;  '/' k").
Notation "m ;ₚ k" := (py_bind m (λ _, k))
  (at level 100, right associativity, format "m  ;ₚ  '/' k").

(** ** JSON values: strings, arrays and objects (a dict keeps the order of
    its keys, and a key occurs once) *)

#[local] Set Warnings "-register-all".

Inductive Json : Type :=
| JStr (s : string)
| JList (elems : list Json)
| JObj (items : list (string * Json)).

(** ** The configuration and the application spec *)

Record Configuration : Type := {
  environment : string;
  infrastructure : string;
  version : string;          (* the controller's own version *)
}.

Record AppSpec : Type := {
  name : string;
  image : string;
  app_version : string;      (* [app_spec.version] *)
  deployment_id : string;
  labels : gmap string string;   (* labels supplied by the user *)
}.

(** ** The HTTP session *)

Record Request : Type := {
  req_url : string;
  req_json : Json;
}.

(** [session.post(url, json=...)]: what the session answers, and its next
    state.  [None] is a response, [Some e] is the exception [e]. *)
Class Session (S : Type) : Type := {
  session_post : S → Request → option Exn * S;
}.

(** ** The Reporter *)

Record Reporter (S : Type) : Type := {
  _environment : string;
  _infrastructure : string;
  _session : S;
  _callback_urls : gmap string string;
}.
Arguments _environment {S} _.
Arguments _infrastructure {S} _.
Arguments _session {S} _.
Arguments _callback_urls {S} _.

(** The world a handler runs in: the reporter object, and the requests that
    have gone out so far, oldest first. *)
Record World (S : Type) : Type := {
  self : Reporter S;
  wire : list Request;
}.
Arguments self {S} _.
Arguments wire {S} _.

(** The lifecycle events, and the bound methods of a reporter that can be
    connected to a signal. *)
Inductive Lifecycle : Type := started | succeeded | failed.

Inductive Receiver : Type := handle_started | handle_success | handle_failure.

Section reporter.
Context {S : Type} `{Session S}.

Definition set_session (s : S) (r : Reporter S) : Reporter S :=
  {| _environment := _environment r;
     _infrastructure := _infrastructure r;
     _session := s;
     _callback_urls := _callback_urls r |}.

Definition set_callback_urls (m : gmap string string) (r : Reporter S)
  : Reporter S :=
  {| _environment := _environment r;
     _infrastructure := _infrastructure r;
     _session := _session r;
     _callback_urls := m |}.

(** [self._session.post(url, json=json)] *)
Definition post (url : string) (json : Json) : Py (World S) unit :=
  λ w,
    let rq := {| req_url := url; req_json := json |} in
    let '(answer, s') := session_post (_session (self w)) rq in
    let w' := {| self := set_session s' (self w); wire := wire w ++ [rq] |} in
    match answer with
    | None => (Returned tt, w')
    | Some e => (Raised e, w')
    end.

(** [Reporter.__init__]: the three [connect] calls are [connections]. *)
Definition __init__ (config : Configuration) (session : S) : World S :=
  {| self := {| _environment := environment config;
                _infrastructure := infrastructure config;
                _session := session;
                _callback_urls := ∅ |};
     wire := [] |}.

Definition connections : list (string * Receiver) :=
  [ ("deploy_started", handle_started);
    ("deploy_success", handle_success);
    ("deploy_failed", handle_failure) ].

(** [Reporter.register] *)
Definition register (deployment_id url : string) : Py (World S) unit :=
  py_modify (λ w,
    {| self := set_callback_urls
                 (<[deployment_id := url]> (_callback_urls (self w))) (self w);
       wire := wire w |}).

(** [u"fiaas_{}-{}_{}".format(environment, infrastructure, event_name)] *)
Definition task_name_format (env infra event_name : string) : string :=
  "fiaas_" ++ env ++ "-" ++ infra ++ "_" ++ event_name.

Definition description : Json :=
  JObj [("description", JStr "From fiaas-deploy-daemon")].

(** [Reporter._handle_signal]; [if base_url:] is false for [None] and for
    the empty string. *)
Definition _handle_signal (event_name : string) (app_spec : AppSpec)
    (status : string) : Py (World S) unit :=
  base_url ←ₚ py_gets (λ w, _callback_urls (self w) !! deployment_id app_spec);
  match base_url with
  | Some base_url =>
      if Py_str.truthy base_url then
        env ←ₚ py_gets (λ w, _environment (self w));
        infra ←ₚ py_gets (λ w, _infrastructure (self w));
        let task_name := task_name_format env infra event_name in
        let url := posixpath.join base_url [task_name; status] in
        post url description
      else py_ret tt
  | None => py_ret tt
  end.

Definition _handle_started (app_spec : AppSpec) : Py (World S) unit :=
  _handle_signal "deploy_started" app_spec "success".

Definition _handle_success (app_spec : AppSpec) : Py (World S) unit :=
  _handle_signal "deploy_end" app_spec "success".

Definition _handle_failure (app_spec : AppSpec) : Py (World S) unit :=
  _handle_signal "deploy_end" app_spec "failure".

Definition call_receiver (r : Receiver) (app_spec : AppSpec)
  : Py (World S) unit :=
  match r with
  | handle_started => _handle_started app_spec
  | handle_success => _handle_success app_spec
  | handle_failure => _handle_failure app_spec
  end.

(** [signal(name).send(sender, app_spec=app_spec)]: the receivers connected
    to [name] are called in turn; an exception of a receiver ends the
    delivery and goes to the sender. *)
Fixpoint deliver (rs : list (string * Receiver)) (signal_name : string)
    (app_spec : AppSpec) : Py (World S) unit :=
  match rs with
  | [] => py_ret tt
  | (n, r) :: rs' =>
      if String.eqb n signal_name then
        call_receiver r app_spec ;ₚ deliver rs' signal_name app_spec
      else deliver rs' signal_name app_spec
  end.

Definition send (signal_name : string) (app_spec : AppSpec)
  : Py (World S) unit :=
  deliver connections signal_name app_spec.

(** The signal a publisher sends for each lifecycle event. *)
Definition signal_of (ev : Lifecycle) : string :=
  match ev with
  | started => "deploy_started"
  | succeeded => "deploy_success"
  | failed => "deploy_failed"
  end.

Definition publish (ev : Lifecycle) (app_spec : AppSpec) : Py (World S) unit :=
  send (signal_of ev) app_spec.

End reporter.

(** Two sessions to run the reporter against: one whose endpoint answers
    every request, one whose endpoint is unreachable. *)
Inductive AnsweringSession : Type := answering_session.

#[global] Instance AnsweringSession_Session : Session AnsweringSession :=
  {| session_post := λ s _, (None, s) |}.

Inductive UnreachableSession : Type := unreachable_session.

#[global] Instance UnreachableSession_Session : Session UnreachableSession :=
  {| session_post := λ s _, (Some (RequestException "connection refused"), s) |}.

(** ** The notification contract, in the words of the interface description

    [POST <callbackUrl>/<taskName>/<status>] where the event name is one of
    deploy_started, deploy_end and the status one of success, failure. *)

Module Contract.

Definition event_name (ev : Lifecycle) : string :=
  match ev with
  | started => "deploy_started"
  | succeeded => "deploy_end"
  | failed => "deploy_end"
  end.

Definition status (ev : Lifecycle) : string :=
  match ev with
  | started => "success"
  | succeeded => "success"
  | failed => "failure"
  end.

(** The notifications an event is to cause, given what [dict.get] finds
    for the deployment id. *)
Definition notifications (env infra : string) (registered : option string)
    (ev : Lifecycle) : list Request :=
  match registered with
  | Some base_url =>
      if Py_str.truthy base_url then
        [ {| req_url := posixpath.join base_url
                          [ "fiaas_" ++ env ++ "-" ++ infra ++ "_" ++ event_name ev;
                            status ev ];
             req_json := JObj [("description", JStr "From fiaas-deploy-daemon")] |} ]
      else []
  | None => []
  end.

End Contract.

(** ** Pure fallible computations (no state) *)

Definition out_bind {A B} (m : Outcome A) (k : A → Outcome B) : Outcome B :=
  match m with
  | Returned a => k a
  | Raised e => Raised e
  end.

Notation "x ←ₒ m ; k" := (out_bind m (λ x, k))
  (at level 100, m at next level, right associativity,
   format "x  ←ₒ  m ;  '/' k").

Fixpoint out_mapM {A B} (f : A → Outcome B) (l : list A) : Outcome (list B) :=
  match l with
  | [] => Returned []
  | x :: l' => y ←ₒ f x; ys ←ₒ out_mapM f l'; Returned (y :: ys)
  end.

(** ** Subscripting of JSON documents *)

Module Dict.

(** [d.get(k)] on the items of a dict *)
Fixpoint get (k : string) (items : list (string * Json)) : option Json :=
  match items with
  | [] => None
  | (k', v) :: items' => if String.eqb k' k then Some v else get k items'
  end.

(** [d[k] = v]: an existing key keeps its place, a new key goes last *)
Fixpoint set (k : string) (v : Json) (items : list (string * Json))
  : list (string * Json) :=
  match items with
  | [] => [(k, v)]
  | (k', v') :: items' =>
      if String.eqb k' k then (k, v) :: items' else (k', v') :: set k v items'
  end.

End Dict.

Inductive Subscript : Type :=
| key (k : string)      (* [d["k"]] *)
| index0.               (* [l[0]] *)

(** [j[sub]] *)
Definition getitem (j : Json) (sub : Subscript) : Outcome Json :=
  match j, sub with
  | JObj items, key k =>
      match Dict.get k items with
      | Some v => Returned v
      | None => Raised (KeyError k)
      end
  | JList (x :: _), index0 => Returned x
  | JList [], index0 => Raised IndexError
  | _, _ => Raised TypeError
  end.

(** [j[sub] = v] *)
Definition setitem (j : Json) (sub : Subscript) (v : Json) : Outcome Json :=
  match j, sub with
  | JObj items, key k => Returned (JObj (Dict.set k v items))
  | JList (_ :: xs), index0 => Returned (JList (v :: xs))
  | JList [], index0 => Raised IndexError
  | _, _ => Raised TypeError
  end.

(** [j[s1][s2]...[sn]] *)
Fixpoint get_path (j : Json) (path : list Subscript) : Outcome Json :=
  match path with
  | [] => Returned j
  | sub :: path' => x ←ₒ getitem j sub; get_path x path'
  end.

(** [j[s1]...[sn][last] = v]: the objects on the way are shared, so the
    document [j] is the one that changes. *)
Fixpoint set_path (j : Json) (path : list Subscript) (last : Subscript)
    (v : Json) : Outcome Json :=
  match path with
  | [] => setitem j last v
  | sub :: path' =>
      x ←ₒ getitem j sub;
      x' ←ₒ set_path x path' last v;
      setitem j sub x'
  end.

(** [j == s] for a string [s] *)
Definition json_eq_str (j : Json) (s : string) : bool :=
  match j with
  | JStr x => String.eqb x s
  | _ => false
  end.

(** [l[-1]] *)
Definition getitem_last {A} (l : list A) : Outcome A :=
  match last l with
  | Some x => Returned x
  | None => Raised IndexError
  end.

(** ** The helpers of the end-to-end test ([test_e2e.py]) *)

Module test_e2e.

Definition container0 : list Subscript :=
  [key "spec"; key "template"; key "spec"; key "containers"; index0].

(** [_set_image] *)
Definition _set_image (expected_dict : Json) (image : string) : Outcome Json :=
  set_path expected_dict container0 (key "image") (JStr image).

(** The body of the loop of [generate_updated_env] for one [item] *)
Definition updated_item (image : string) (item : Json) : Outcome Json :=
  n ←ₒ getitem item (key "name");
  item ←ₒ (if json_eq_str n "VERSION" then
             tag ←ₒ getitem_last (Py_str.split ":" image);
             setitem item (key "value") (JStr tag)
           else Returned item);
  n ←ₒ getitem item (key "name");
  if json_eq_str n "IMAGE" then setitem item (key "value") (JStr image)
  else Returned item.

(** [_set_env] *)
Definition _set_env (expected_dict : Json) (image : string) : Outcome Json :=
  env ←ₒ get_path expected_dict (container0 ++ [key "env"]);
  match env with
  | JList items =>
      updated ←ₒ out_mapM (updated_item image) items;
      set_path expected_dict container0 (key "env") (JList updated)
  | JObj [] | JStr EmptyString =>        (* nothing to iterate over *)
      set_path expected_dict container0 (key "env") (JList [])
  | _ => Raised TypeError                (* an item that is a key or a character *)
  end.

End test_e2e.

(** ** The Kubernetes adapter and the deployment deployer

    [deployer/kubernetes/adapter.py] and [deployer/kubernetes/deployment.py]
    are exercised by [test_adapter.py] and [test_e2e.py] but are not among
    the sources at hand. *)

Module K8s.

(** Modelled from the spec: [_make_selector] of adapter.py is missing; the
    selector of the identity metadata is [{app: name}]. *)
Definition _make_selector (app_spec : AppSpec) : gmap string string :=
  {[ "app" := name app_spec ]}.

(** Modelled from the spec: [K8s._make_labels] of adapter.py is missing; the
    label set is [{app: name, fiaas/version: AppSpec.version,
    fiaas/deployed_by: controllerVersion, fiaas/deployment_id: deploymentId,
    ...user-labels}].  The label set is required to contain the selector
    for every AppSpec, so the four identity entries are written over the
    labels of the user. *)
Definition _make_labels (config : Configuration) (app_spec : AppSpec)
  : gmap string string :=
  <["app" := name app_spec]>
    (<["fiaas/version" := app_version app_spec]>
       (<["fiaas/deployed_by" := version config]>
          (<["fiaas/deployment_id" := deployment_id app_spec]>
             (labels app_spec)))).

(** The calls the deployers receive, as the test doubles of
    [test_adapter.py] record them. *)
Inductive Call : Type :=
| deployment_deployer_deploy (app_spec : AppSpec)
    (selector labels : gmap string string)
| deploy_service (app_spec : AppSpec) (selector labels : gmap string string)
| ingress_deployer_deploy (app_spec : AppSpec) (labels : gmap string string).

Definition call (c : Call) : Py (list Call) unit :=
  py_modify (λ calls, (calls ++ [c])%list).

(** Modelled from the spec: [K8s.deploy] of adapter.py is missing; the
    reconciler computes the identity metadata once and hands it to each
    deriver: the deployment and the service get the selector and the
    labels, the ingress gets the labels. *)
Definition deploy (config : Configuration) (app_spec : AppSpec)
  : Py (list Call) unit :=
  let selector := _make_selector app_spec in
  let labels := _make_labels config app_spec in
  call (deployment_deployer_deploy app_spec selector labels) ;ₚ
  call (deploy_service app_spec selector labels) ;ₚ
  call (ingress_deployer_deploy app_spec labels).

(** [image.split(":")[-1]], the tag of an image reference; [split] never
    returns the empty list, so the default is never taken. *)
Definition image_tag (image : string) : string :=
  default EmptyString (last (Py_str.split ":" image)).

Definition env_var (n v : string) : Json :=
  JObj [("name", JStr n); ("value", JStr v)].

Definition json_of_labels (labels : gmap string string) : Json :=
  JObj ((λ kv : string * string, (kv.1, JStr kv.2)) <$> map_to_list labels).

(** Modelled from the spec: the deployment deriver of deployment.py is
    missing; the container gets the image and the environment variables
    VERSION (the image tag) and IMAGE (the full reference) ahead of the
    variables [extra_env] that come from elsewhere, and the pod template
    inherits the labels of the identity metadata. *)
Definition derive_deployment (extra_env : list Json) (app_spec : AppSpec)
    (selector labels : gmap string string) : Json :=
  JObj [
    ("metadata", JObj [("name", JStr (name app_spec));
                       ("labels", json_of_labels labels)]);
    ("spec", JObj [
      ("selector", JObj [("matchLabels", json_of_labels selector)]);
      ("template", JObj [
        ("metadata", JObj [("labels", json_of_labels labels)]);
        ("spec", JObj [
          ("containers", JList [
            JObj [("name", JStr (name app_spec));
                  ("image", JStr (image app_spec));
                  ("env", JList (env_var "VERSION" (image_tag (image app_spec))
                                 :: env_var "IMAGE" (image app_spec)
                                 :: extra_env))]])])])])].

(** The environment of the first container of a deployment document. *)
Definition container_env (deployment : Json) : Outcome Json :=
  get_path deployment (test_e2e.container0 ++ [key "env"]).

End K8s.

(** ** Sample data *)

Definition sample_config : Configuration :=
  {| environment := "test"; infrastructure := "diy"; version := "1" |}.

Definition sample_app (dep_id : string) : AppSpec :=
  {| name := "application-name";
     image := "finntech/application-name:123";
     app_version := "123";
     deployment_id := dep_id;
     labels := {[ "team" := "platform" ]} |}.

(** A fresh reporter over [session], with one callback registered. *)
Definition registered_world {S : Type} `{Session S} (session : S)
    (dep_id url : string) : World S :=
  (register dep_id url (__init__ sample_config session)).2.

(** ** More of Python's string and dict operations *)

Module Py_str2.

(** [s.replace("", new)]: [new] goes before every character and at the end. *)
Fixpoint interleave (new s : string) : string :=
  match s with
  | EmptyString => new
  | String c s' => new ++ String c (interleave new s')
  end.

(** [s.replace(old, new)] for a non-empty [old], scanning from the left;
    [skip] counts the characters of a found occurrence still to pass over. *)
Fixpoint replace_from (old new : string) (skip : nat) (s : string) : string :=
  match s with
  | EmptyString => EmptyString
  | String c s' =>
      match skip with
      | S n => replace_from old new n s'
      | O =>
          if String.prefix old s
          then new ++ replace_from old new (String.length old - 1) s'
          else String c (replace_from old new 0 s')
      end
  end.

(** [s.replace(old, new)] *)
Definition replace (s old new : string) : string :=
  match old with
  | EmptyString => interleave new s
  | String _ _ => replace_from old new 0 s
  end.

(** The character class [[-a-z0-9]] *)
Definition name_char (c : ascii) : bool :=
  let n := nat_of_ascii c in
  (n =? 45)%nat
  || ((97 <=? n)%nat && (n <=? 122)%nat)
  || ((48 <=? n)%nat && (n <=? 57)%nat).

(** [re.sub("[^-a-z0-9]", repl, s)]: every character outside the class is
    replaced by [repl]. *)
Fixpoint sub_not_name_char (repl s : string) : string :=
  match s with
  | EmptyString => EmptyString
  | String c s' =>
      if name_char c then String c (sub_not_name_char repl s')
      else repl ++ sub_not_name_char repl s'
  end.

(** All characters of [s] satisfy [p]. *)
Fixpoint all_chars (p : ascii → bool) (s : string) : bool :=
  match s with
  | EmptyString => true
  | String c s' => p c && all_chars p s'
  end.

End Py_str2.

(** [del d[k]] on the items of a dict: no item with key [k] is left. *)
Fixpoint dict_remove (k : string) (items : list (string * Json))
  : list (string * Json) :=
  match items with
  | [] => []
  | (k', v) :: items' =>
      if String.eqb k' k then dict_remove k items'
      else (k', v) :: dict_remove k items'
  end.

(** [del j[k]] *)
Definition delitem (j : Json) (k : string) : Outcome Json :=
  match j with
  | JObj items =>
      match Dict.get k items with
      | Some _ => Returned (JObj (dict_remove k items))
      | None => Raised (KeyError k)
      end
  | _ => Raised TypeError
  end.

(** [f(j[s1]...[sn])] for an [f] that changes its argument in place: the
    objects on the way are shared, so the document [j] is what changes. *)
Fixpoint with_path (j : Json) (path : list Subscript)
    (f : Json → Outcome Json) : Outcome Json :=
  match path with
  | [] => f j
  | sub :: path' =>
      x ←ₒ getitem j sub;
      x' ←ₒ with_path x path' f;
      setitem j sub x'
  end.

(** ** The other helpers of the end-to-end test ([test_e2e.py]) *)

Module e2e.

(** [TestE2E._sanitize] *)
Definition _sanitize (param : string) : string :=
  Py_str2.sub_not_name_char "-" (Py_str2.replace param ".yml" "").

Definition metadata_labels : list Subscript := [key "metadata"; key "labels"].

(** [_set_labels] *)
Definition _set_labels (expected_dict : Json) (image deployment_id : string)
  : Outcome Json :=
  tag ←ₒ getitem_last (Py_str.split ":" image);
  d ←ₒ set_path expected_dict metadata_labels (key "fiaas/version") (JStr tag);
  set_path d metadata_labels (key "fiaas/deployment_id") (JStr deployment_id).

(** [_set_service_type] *)
Definition _set_service_type (expected_dict : Json) (service_type : string)
  : Outcome Json :=
  set_path expected_dict [key "spec"] (key "type") (JStr service_type).

(** [_ensure_key_missing(d, key, *more)]: a [KeyError] on the way, or at the
    [del], is passed over; any other error is not. *)
Fixpoint _ensure_key_missing (d : Json) (k : string) (more : list string)
  : Outcome Json :=
  match more with
  | [] =>
      match delitem d k with
      | Raised (KeyError _) => Returned d
      | r => r
      end
  | k' :: more' =>
      match getitem d (key k) with
      | Returned x =>
          x' ←ₒ _ensure_key_missing x k' more';
          setitem d (key k) x'
      | Raised (KeyError _) => Returned d
      | Raised e => Raised e
      end
  end.

(** The kinds of resources the test looks at. *)
Inductive Kind : Type := Service | Deployment | Ingress | HorizontalPodAutoscaler.

(** A resource read from the cluster: its class and [resource.as_dict()]. *)
Record Resource : Type := {
  resource_kind : Kind;
  as_dict : Json;
}.

Definition is_kind (k1 k2 : Kind) : bool :=
  match k1, k2 with
  | Service, Service | Deployment, Deployment | Ingress, Ingress
  | HorizontalPodAutoscaler, HorizontalPodAutoscaler => true
  | _, _ => false
  end.

(** [for port in ports: _ensure_key_missing(port, "nodePort")] *)
Definition drop_node_ports (ports : Json) : Outcome Json :=
  match ports with
  | JList items =>
      cleaned ←ₒ out_mapM (λ port, _ensure_key_missing port "nodePort" []) items;
      Returned (JList cleaned)
  | JObj [] | JStr EmptyString => Returned ports
  | _ => Raised TypeError
  end.

Definition pod_annotations : list string :=
  ["template"; "metadata"; "annotations"].

(** The part of [_assert_k8s_resource_matches] that makes the expected
    document ready for the comparison. *)
Definition prepare_expected (expected_dict : Json)
    (image service_type deployment_id : string) : Outcome Json :=
  e ←ₒ _set_labels expected_dict image deployment_id;
  kind ←ₒ getitem e (key "kind");
  e ←ₒ (if json_eq_str kind "Deployment" then
          e ←ₒ test_e2e._set_image e image;
          e ←ₒ test_e2e._set_env e image;
          with_path e [key "spec"; key "template"]
            (λ t, _set_labels t image deployment_id)
        else Returned e);
  kind ←ₒ getitem e (key "kind");
  e ←ₒ (if json_eq_str kind "Service" then _set_service_type e service_type
        else Returned e);
  e ←ₒ delitem e "apiVersion";
  delitem e "kind".

(** The part of [_assert_k8s_resource_matches] that takes out of the actual
    document what the cluster generates. *)
Definition clean_actual (resource : Resource) : Outcome Json :=
  a ←ₒ _ensure_key_missing (as_dict resource) "metadata" ["creationTimestamp"];
  a ←ₒ _ensure_key_missing a "metadata" ["generation"];
  a ←ₒ _ensure_key_missing a "metadata" ["resourceVersion"];
  a ←ₒ _ensure_key_missing a "metadata" ["selfLink"];
  a ←ₒ _ensure_key_missing a "metadata" ["uid"];
  a ←ₒ _ensure_key_missing a "metadata"
         ["annotations"; "deployment.kubernetes.io/revision"];
  a ←ₒ _ensure_key_missing a "status" [];
  a ←ₒ (if is_kind (resource_kind resource) HorizontalPodAutoscaler then
          _ensure_key_missing a "metadata"
            ["annotations"; "autoscaling.alpha.kubernetes.io/conditions"]
        else Returned a);
  a ←ₒ (if is_kind (resource_kind resource) Deployment then
          a ←ₒ _ensure_key_missing a "spec"
                 (pod_annotations ++ ["pod.alpha.kubernetes.io/init-containers"]);
          a ←ₒ _ensure_key_missing a "spec"
                 (pod_annotations ++ ["pod.beta.kubernetes.io/init-containers"]);
          a ←ₒ _ensure_key_missing a "spec"
                 (pod_annotations
                    ++ ["pod.alpha.kubernetes.io/init-container-statuses"]);
          _ensure_key_missing a "spec"
            (pod_annotations ++ ["pod.beta.kubernetes.io/init-container-statuses"])
        else Returned a);
  if is_kind (resource_kind resource) Service then
    a ←ₒ _ensure_key_missing a "spec" ["clusterIP"];
    with_path a [key "spec"; key "ports"] drop_node_ports
  else Returned a.

(** [_assert_k8s_resource_matches]; [assert_dicts] is the comparison of
    [pytest.helpers], which comes from elsewhere. *)
Definition _assert_k8s_resource_matches
    (assert_dicts : Json → Json → Outcome unit)
    (resource : Resource) (expected_dict : Json)
    (image service_type deployment_id : string) : Outcome unit :=
  expected ←ₒ prepare_expected expected_dict image service_type deployment_id;
  actual ←ₒ clean_actual resource;
  assert_dicts actual expected.

End e2e.

(** The deployment derived for the sample application. *)
Definition sample_deployment : Json :=
  let a := sample_app "deployment_id_1" in
  K8s.derive_deployment [] a (K8s._make_selector a)
    (K8s._make_labels sample_config a).

(** The environment [_set_env] iterates over, as a list of items. *)
Definition env_items (env : Json) : list Json :=
  match env with
  | JList items => items
  | _ => []
  end.

(** What the loop of [generate_updated_env] does with one item: the name
    stays, the value of VERSION becomes the tag and the value of IMAGE the
    image, an item of another name is left alone. *)
Definition env_item_updated (image : string) (item item' : Json) : Prop :=
  ∃ n, getitem item (key "name") = Returned n
       ∧ getitem item' (key "name") = Returned n
       ∧ if json_eq_str n "VERSION"
         then getitem item' (key "value") = Returned (JStr (K8s.image_tag image))
         else if json_eq_str n "IMAGE"
              then getitem item' (key "value") = Returned (JStr image)
              else item' = item.

(** The lookup of the path raises a [KeyError]. *)
Definition path_missing (d : Json) (path : list Subscript) : Prop :=
  ∃ k, get_path d path = Raised (KeyError k).

(** The fields that [_assert_k8s_resource_matches] takes out of the actual
    document of a resource of any kind, in the order of the source. *)
Definition generated_fields : list (list string) :=
  [ ["metadata"; "creationTimestamp"];
    ["metadata"; "generation"];
    ["metadata"; "resourceVersion"];
    ["metadata"; "selfLink"];
    ["metadata"; "uid"];
    ["metadata"; "annotations"; "deployment.kubernetes.io/revision"];
    ["status"] ].

(** The annotations it takes out of the pod template of a Deployment. *)
Definition generated_pod_annotations : list (list string) :=
  [ ["spec"; "template"; "metadata"; "annotations";
     "pod.alpha.kubernetes.io/init-containers"];
    ["spec"; "template"; "metadata"; "annotations";
     "pod.beta.kubernetes.io/init-containers"];
    ["spec"; "template"; "metadata"; "annotations";
     "pod.alpha.kubernetes.io/init-container-statuses"];
    ["spec"; "template"; "metadata"; "annotations";
     "pod.beta.kubernetes.io/init-container-statuses"] ].

(** An expected Deployment as the test reads it from its data, and the
    resource the cluster hands back for it. *)
Definition sample_expected : Json :=
  match sample_deployment with
  | JObj items =>
      JObj (("apiVersion", JStr "extensions/v1beta1")
            :: ("kind", JStr "Deployment") :: items)
  | j => j
  end.

Definition sample_resource : e2e.Resource :=
  {| e2e.resource_kind := e2e.Deployment;
     e2e.as_dict :=
       match sample_deployment with
       | JObj items =>
           JObj (items ++ [("status", JObj [("replicas", JStr "1")])])
       | j => j
       end |}.

(** A Service as the cluster hands it back. *)
Definition sample_service : e2e.Resource :=
  {| e2e.resource_kind := e2e.Service;
     e2e.as_dict :=
       JObj [("metadata", JObj [("name", JStr "application-name");
                                ("uid", JStr "0000-1111")]);
             ("spec", JObj [("type", JStr "NodePort");
                            ("clusterIP", JStr "10.0.0.12");
                            ("ports", JList [
                               JObj [("name", JStr "http");
                                     ("port", JStr "80");
                                     ("nodePort", JStr "31234")];
                               JObj [("name", JStr "metrics");
                                     ("port", JStr "8080")]])])] |}.

(** * Properties *)

(** ** Strings and paths *)

Lemma string_app_cons (x : ascii) (a b : string) :
  String x a ++ b = String x (a ++ b).
Proof. reflexivity. Qed.

Lemma string_app_assoc (a b c : string) : (a ++ b) ++ c = a ++ b ++ c.
Proof.
  induction a as [|x a IH]; [reflexivity|].
  by rewrite !string_app_cons, IH.
Qed.

Lemma string_length_app (a b : string) :
  String.length (a ++ b) = (String.length a + String.length b)%nat.
Proof.
  induction a as [|x a IH]; [reflexivity|].
  rewrite string_app_cons. cbn [String.length]. by rewrite IH.
Qed.

Lemma endswith_cons (c : ascii) (s suffix : string) :
  Py_str.endswith (String c s) suffix
  = String.eqb (String c s) suffix || Py_str.endswith s suffix.
Proof. reflexivity. Qed.

Lemma endswith_app (a b suffix : string) :
  (String.length suffix ≤ String.length b)%nat → b ≠ suffix →
  Py_str.endswith (a ++ b) suffix = Py_str.endswith b suffix.
Proof.
  intros Hlen Hne. induction a as [|c a IH]; [reflexivity|].
  rewrite string_app_cons, endswith_cons, IH.
  destruct (String.eqb_spec (String c (a ++ b)) suffix) as [Heq|_]; [|reflexivity].
  exfalso. subst suffix. cbn [String.length] in Hlen.
  rewrite string_length_app in Hlen. lia.
Qed.

(** The URL of a notification: the task name and the status are appended to
    the base URL, with one separator each, unless the base URL already ends
    with a separator. *)
Lemma join_task_status (base prefix event status : string) :
  base ≠ "" →
  Py_str.startswith status "/" = false →
  event ≠ "" → Py_str.endswith event "/" = false →
  let task := "fiaas_" ++ prefix ++ event in
  posixpath.join base [task; status]
  = if Py_str.endswith base "/" then base ++ task ++ "/" ++ status
    else base ++ "/" ++ task ++ "/" ++ status.
Proof.
  intros Hbase Hstatus Hev Hend task.
  assert (Htask : ∀ p, Py_str.endswith (p ++ task) "/" = false).
  { intros p. subst task.
    rewrite <- (string_app_assoc "fiaas_"), <- string_app_assoc.
    rewrite endswith_app; [done| |by intros ->].
    destruct event; [done|cbn; lia]. }
  assert (Hne : ∀ p, String.eqb (p ++ task) "" = false).
  { intros p. apply String.eqb_neq. intros Heq.
    apply (f_equal String.length) in Heq. subst task.
    rewrite !string_length_app in Heq. cbn in Heq. lia. }
  unfold posixpath.join, posixpath.join_step. cbn [foldl].
  change (Py_str.startswith task "/") with false. cbv iota.
  rewrite Hstatus.
  destruct (String.eqb_spec base "") as [|_]; [done|]. cbn [orb].
  destruct (Py_str.endswith base "/").
  - rewrite Hne, Htask. cbn [orb]. by rewrite string_app_assoc.
  - rewrite <- (string_app_assoc base "/" task), Hne, Htask. cbn [orb].
    by rewrite !string_app_assoc.
Qed.

(** ** The reporter *)

Section reporter_facts.
Context {S : Type} `{Session S}.

Implicit Types (w : World S) (a : AppSpec) (ev : Lifecycle).

Lemma bind_ret_tt {W} (m : Py W unit) (w : W) : (m ;ₚ py_ret tt) w = m w.
Proof. unfold py_bind, py_ret. by destruct (m w) as [[[]|e] w']. Qed.

(** What [_handle_signal] does, by the guard [if base_url:]. *)
Lemma handle_signal_run (event_name status : string) a w :
  _handle_signal event_name a status w
  = match _callback_urls (self w) !! deployment_id a with
    | Some base_url =>
        if Py_str.truthy base_url then
          post (posixpath.join base_url
                  [task_name_format (_environment (self w))
                     (_infrastructure (self w)) event_name; status])
               description w
        else (Returned tt, w)
    | None => (Returned tt, w)
    end.
Proof.
  unfold _handle_signal, py_bind, py_gets, py_ret.
  destruct (_callback_urls (self w) !! deployment_id a) as [base_url|];
    [|reflexivity].
  by destruct (Py_str.truthy base_url).
Qed.

(** Publishing an event runs the one receiver connected to its signal. *)
Lemma publish_run ev a w :
  publish ev a w
  = match ev with
    | started => _handle_started a w
    | succeeded => _handle_success a w
    | failed => _handle_failure a w
    end.
Proof.
  destruct ev; unfold publish, send, connections; cbn -[py_bind py_ret];
    apply bind_ret_tt.
Qed.

Lemma post_wire (url : string) (json : Json) w :
  wire (post url json w).2
  = (wire w ++ [ {| req_url := url; req_json := json |} ])%list.
Proof.
  unfold post. destruct (session_post _ _) as [[e|] s']; reflexivity.
Qed.

Lemma post_callback_urls (url : string) (json : Json) w :
  _callback_urls (self (post url json w).2) = _callback_urls (self w).
Proof.
  unfold post. destruct (session_post _ _) as [[e|] s']; reflexivity.
Qed.

Lemma post_outcome (url : string) (json : Json) w :
  (post url json w).1
  = match (session_post (_session (self w))
             {| req_url := url; req_json := json |}).1 with
    | Some e => Raised e
    | None => Returned tt
    end.
Proof.
  unfold post. destruct (session_post _ _) as [[e|] s']; reflexivity.
Qed.

(** The requests on the wire after an event are those before it followed by
    the notifications of the contract. *)
Lemma publish_wire ev a w :
  wire (publish ev a w).2
  = (wire w ++ Contract.notifications (_environment (self w))
                 (_infrastructure (self w))
                 (_callback_urls (self w) !! deployment_id a) ev)%list.
Proof.
  rewrite publish_run.
  destruct ev; unfold _handle_started, _handle_success, _handle_failure;
    rewrite handle_signal_run; unfold Contract.notifications;
    (destruct (_callback_urls (self w) !! deployment_id a) as [base_url|];
     [destruct (Py_str.truthy base_url)|]);
    rewrite ?post_wire, ?app_nil_r; reflexivity.
Qed.

End reporter_facts.


(** C1: when the deployment id of the application spec has a registered
    callback URL (a non-empty string, the only kind the guard of
    [_handle_signal] lets through), a started event puts exactly one POST on
    the wire; its URL is [posixpath.join] of the registered base URL, the
    task name fiaas_<environment>-<infrastructure>_deploy_started and the
    status success, that is <base>/<task>/success (with no second separator
    when the base URL ends with one), and its JSON body is
    {"description": "From fiaas-deploy-daemon"}. *)
Theorem started_event_posts_once {S : Type} `{Session S}
    (w : World S) (a : AppSpec) (url : string) :
  _callback_urls (self w) !! deployment_id a = Some url →
  url ≠ "" →
  let task := "fiaas_" ++ _environment (self w) ++ "-"
                ++ _infrastructure (self w) ++ "_deploy_started" in
  let target := posixpath.join url [task; "success"] in
  wire (publish started a w).2
  = (wire w ++ [ {| req_url := target;
                    req_json := JObj [("description",
                                       JStr "From fiaas-deploy-daemon")] |} ])%list
  ∧ target = (if Py_str.endswith url "/" then url ++ task ++ "/success"
              else url ++ "/" ++ task ++ "/success").
Proof.
  intros Hreg Hurl task target. split.
  - rewrite publish_wire, Hreg. unfold Contract.notifications.
    destruct url as [|c url]; [done|]. reflexivity.
  - subst target task.
    pose proof (join_task_status url
                  (_environment (self w) ++ "-" ++ _infrastructure (self w) ++ "_")
                  "deploy_started" "success") as Hjoin.
    cbv zeta in Hjoin. rewrite !string_app_assoc in Hjoin.
    rewrite !string_app_assoc. apply Hjoin; done.
Qed.

Lemma started_event_posts_once_witness :
  wire (publish started (sample_app "D1")
          (registered_world answering_session "D1" "http://pipeline/cb")).2
  = [ {| req_url := "http://pipeline/cb/fiaas_test-diy_deploy_started/success";
         req_json := JObj [("description", JStr "From fiaas-deploy-daemon")] |} ].
Proof.
  pose proof (started_event_posts_once
                (registered_world answering_session "D1" "http://pipeline/cb")
                (sample_app "D1") "http://pipeline/cb") as Hthm.
  destruct Hthm as [Hwire _].
  - vm_compute. reflexivity.
  - discriminate.
  - rewrite Hwire. vm_compute. reflexivity.
Defined.

(** What a handler returns to the sender of the signal. *)
Lemma publish_outcome {S : Type} `{Session S}
    (w : World S) (ev : Lifecycle) (a : AppSpec) :
  (publish ev a w).1
  = match Contract.notifications (_environment (self w))
            (_infrastructure (self w))
            (_callback_urls (self w) !! deployment_id a) ev with
    | [] => Returned tt
    | rq :: _ =>
        match (session_post (_session (self w)) rq).1 with
        | Some e => Raised e
        | None => Returned tt
        end
    end.
Proof.
  rewrite publish_run.
  destruct ev; unfold _handle_started, _handle_success, _handle_failure;
    rewrite handle_signal_run; unfold Contract.notifications;
    (destruct (_callback_urls (self w) !! deployment_id a) as [base_url|];
     [destruct (Py_str.truthy base_url)|]);
    rewrite ?post_outcome; reflexivity.
Qed.

(** C2, as stated, fails: with a registered callback URL and an endpoint
    that cannot be reached, the error of the HTTP post leaves the handler
    [_handle_started] and reaches the sender of the signal. *)
Lemma notification_failure_reaches_publisher :
  let w := registered_world unreachable_session "D1" "http://pipeline/cb" in
  (_handle_started (sample_app "D1") w).1
  = Raised (RequestException "connection refused")
  ∧ (publish started (sample_app "D1") w).1
    = Raised (RequestException "connection refused").
Proof. split; vm_compute; reflexivity. Qed.

(** C2, amended: the Reporter has no handler for a failure of the delivery.
    For every event, when the HTTP post raises an error the handler raises
    that same error to the sender of the signal (the request has gone out,
    nothing is logged by the Reporter); when the post returns, or when there
    is nothing to post, the handler returns normally. *)
Theorem notification_failure_propagates {S : Type} `{Session S}
    (w : World S) (ev : Lifecycle) (a : AppSpec) :
  (publish ev a w).1
  = match _callback_urls (self w) !! deployment_id a with
    | Some base_url =>
        if Py_str.truthy base_url then
          match (session_post (_session (self w))
                   {| req_url :=
                        posixpath.join base_url
                          [task_name_format (_environment (self w))
                             (_infrastructure (self w)) (Contract.event_name ev);
                           Contract.status ev];
                      req_json := description |}).1 with
          | Some e => Raised e
          | None => Returned tt
          end
        else Returned tt
    | None => Returned tt
    end.
Proof.
  rewrite publish_outcome. unfold Contract.notifications.
  destruct (_callback_urls (self w) !! deployment_id a) as [base_url|];
    [|reflexivity].
  destruct (Py_str.truthy base_url); reflexivity.
Qed.

(** C3, as stated, fails: a second [register] for the same deployment id
    replaces the URL of the first. *)
Lemma register_twice_replaces_url :
  let w1 := registered_world answering_session "D1" "http://first/cb" in
  let w2 := (register "D1" "http://second/cb" w1).2 in
  _callback_urls (self w1) !! "D1" = Some "http://first/cb"
  ∧ _callback_urls (self w2) !! "D1" = Some "http://second/cb"
  ∧ _callback_urls (self w2) !! "D1" ≠ _callback_urls (self w1) !! "D1".
Proof. vm_compute. repeat split; discriminate. Qed.

(** C3, amended: [register] is a plain dict assignment.  After
    [register(d, url)] the mapping holds [url] for [d], whatever was there
    before, and every other deployment id keeps what it had; [register]
    returns normally and sends nothing. *)
Theorem register_assigns {S : Type} `{Session S}
    (w : World S) (d url d' : string) :
  let r := register d url w in
  r.1 = Returned tt
  ∧ wire r.2 = wire w
  ∧ _callback_urls (self r.2) !! d'
    = if decide (d = d') then Some url else _callback_urls (self w) !! d'.
Proof.
  cbn. repeat split. apply lookup_insert.
Qed.

(** C4: when the deployment id of the application spec has no registered
    callback URL, handling a started, succeeded or failed event returns
    normally and leaves the world as it was: no request goes out. *)
Theorem unregistered_event_is_noop {S : Type} `{Session S}
    (w : World S) (ev : Lifecycle) (a : AppSpec) :
  _callback_urls (self w) !! deployment_id a = None →
  publish ev a w = (Returned tt, w).
Proof.
  intros Hnone. rewrite publish_run.
  destruct ev; unfold _handle_started, _handle_success, _handle_failure;
    rewrite handle_signal_run, Hnone; reflexivity.
Qed.

Lemma unregistered_event_is_noop_witness :
  let w := registered_world unreachable_session "D1" "http://pipeline/cb" in
  publish started (sample_app "D2") w = (Returned tt, w)
  ∧ publish succeeded (sample_app "D2") w = (Returned tt, w)
  ∧ publish failed (sample_app "D2") w = (Returned tt, w).
Proof.
  cbv zeta.
  split; [|split]; apply unregistered_event_is_noop; vm_compute; reflexivity.
Defined.

(** C5: the requests an event puts on the wire are those of the contract: a
    started event uses the event name deploy_started and the status success,
    a succeeded event deploy_end and success, a failed event deploy_end and
    failure; every request that goes out has a URL made of one of these
    event names and one of these statuses. *)
Theorem events_map_to_names_and_statuses {S : Type} `{Session S}
    (w : World S) (ev : Lifecycle) (a : AppSpec) :
  let env := _environment (self w) in
  let infra := _infrastructure (self w) in
  let sent := Contract.notifications env infra
                (_callback_urls (self w) !! deployment_id a) ev in
  wire (publish ev a w).2 = (wire w ++ sent)%list
  ∧ (Contract.event_name ev, Contract.status ev)
    = match ev with
      | started => ("deploy_started", "success")
      | succeeded => ("deploy_end", "success")
      | failed => ("deploy_end", "failure")
      end
  ∧ Forall (λ rq,
      ∃ base event status,
        _callback_urls (self w) !! deployment_id a = Some base
        ∧ req_url rq = posixpath.join base
                         ["fiaas_" ++ env ++ "-" ++ infra ++ "_" ++ event; status]
        ∧ (event = "deploy_started" ∨ event = "deploy_end")
        ∧ (status = "success" ∨ status = "failure")) sent.
Proof.
  intros env infra sent. split; [apply publish_wire|].
  split; [by destruct ev|].
  subst sent. unfold Contract.notifications.
  destruct (_callback_urls (self w) !! deployment_id a) as [base|];
    [|constructor].
  destruct (Py_str.truthy base); [|constructor].
  constructor; [|constructor].
  exists base, (Contract.event_name ev), (Contract.status ev).
  repeat split; destruct ev; cbn; auto.
Qed.

(** C9: handling a started, succeeded or failed event leaves the mapping of
    callback registrations as it was, also when the HTTP post raises: no
    entry is added, removed or changed. *)
Theorem events_keep_registrations {S : Type} `{Session S}
    (w : World S) (ev : Lifecycle) (a : AppSpec) :
  _callback_urls (self (publish ev a w).2) = _callback_urls (self w).
Proof.
  rewrite publish_run.
  destruct ev; unfold _handle_started, _handle_success, _handle_failure;
    rewrite handle_signal_run;
    (destruct (_callback_urls (self w) !! deployment_id a) as [base_url|];
     [destruct (Py_str.truthy base_url)|]);
    rewrite ?post_callback_urls; reflexivity.
Qed.

(** C10: after [register(deployment_id, "")], an event for that deployment
    id returns normally and sends nothing, which is what it does for a
    deployment id that was never registered. *)
Theorem empty_url_is_no_registration {S : Type} `{Session S}
    (w : World S) (ev : Lifecycle) (a : AppSpec) :
  let w' := (register (deployment_id a) "" w).2 in
  publish ev a w' = (Returned tt, w')
  ∧ wire (publish ev a w').2 = wire w.
Proof.
  assert (Hrun : publish ev a (register (deployment_id a) "" w).2
                 = (Returned tt, (register (deployment_id a) "" w).2)).
  { rewrite publish_run.
    destruct ev; unfold _handle_started, _handle_success, _handle_failure;
      rewrite handle_signal_run; cbn; rewrite lookup_insert_eq; reflexivity. }
  cbv zeta. rewrite Hrun. split; reflexivity.
Qed.

(** ** The identity metadata and the adapter *)

Lemma make_labels_app (config : Configuration) (a : AppSpec) :
  K8s._make_labels config a !! "app" = Some (name a).
Proof. unfold K8s._make_labels. apply lookup_insert_eq. Qed.

Lemma make_labels_version (config : Configuration) (a : AppSpec) :
  K8s._make_labels config a !! "fiaas/version" = Some (app_version a).
Proof.
  unfold K8s._make_labels.
  rewrite lookup_insert_ne by done. apply lookup_insert_eq.
Qed.

Lemma make_labels_deployed_by (config : Configuration) (a : AppSpec) :
  K8s._make_labels config a !! "fiaas/deployed_by" = Some (version config).
Proof.
  unfold K8s._make_labels.
  rewrite !lookup_insert_ne by done. apply lookup_insert_eq.
Qed.

Lemma selector_is_not_the_label_set (config : Configuration) (a : AppSpec) :
  K8s._make_selector a ≠ K8s._make_labels config a.
Proof.
  intros Heq. pose proof (make_labels_version config a) as Hv.
  rewrite <- Heq in Hv. unfold K8s._make_selector in Hv.
  by rewrite lookup_singleton_ne in Hv.
Qed.

(** C6: the selector of the identity metadata is exactly {app: name}; the
    label set contains the selector, and holds app = name, fiaas/version =
    the version of the AppSpec and fiaas/deployed_by = the version of the
    controller. *)
Theorem selector_within_labels (config : Configuration) (a : AppSpec) :
  K8s._make_selector a = {[ "app" := name a ]}
  ∧ K8s._make_selector a ⊆ K8s._make_labels config a
  ∧ K8s._make_labels config a !! "app" = Some (name a)
  ∧ K8s._make_labels config a !! "fiaas/version" = Some (app_version a)
  ∧ K8s._make_labels config a !! "fiaas/deployed_by" = Some (version config).
Proof.
  split; [reflexivity|]. split.
  - apply map_singleton_subseteq_l, make_labels_app.
  - auto using make_labels_app, make_labels_version, make_labels_deployed_by.
Qed.

(** C7: one call of [deploy] hands the spec, the selector and the labels to
    the deployment deployer, the spec, the selector and the labels to the
    service deployer, and the spec and the labels to the ingress deployer,
    each once; the selector is the one of the identity metadata, which is
    never the label set. *)
Theorem deploy_passes_identity_metadata (config : Configuration)
    (a : AppSpec) (calls : list K8s.Call) :
  let selector := K8s._make_selector a in
  let labels := K8s._make_labels config a in
  (K8s.deploy config a calls).1 = Returned tt
  ∧ (K8s.deploy config a calls).2
    ≡ₚ (calls ++ [ K8s.deployment_deployer_deploy a selector labels;
                   K8s.deploy_service a selector labels;
                   K8s.ingress_deployer_deploy a labels ])%list
  ∧ selector = {[ "app" := name a ]}
  ∧ selector ≠ labels.
Proof.
  intros selector labels. split; [reflexivity|]. split.
  - unfold K8s.deploy, K8s.call, py_bind, py_modify. cbn.
    by rewrite <- !app_assoc.
  - split; [reflexivity|apply selector_is_not_the_label_set].
Qed.

(** ** The image tag and the environment of the container *)

(** [s.split(sep)] is [[s]] when [sep] does not occur in [s]; otherwise it
    has two or more parts, and the last part is what follows the last
    separator of [s]. *)
Lemma split_spec (sep : ascii) (s : string) :
  match Py_str.split sep s with
  | [] => False
  | [w] => Py_str.contains sep s = false ∧ w = s
  | _ :: ws =>
      Py_str.contains sep s = true
      ∧ ∃ t pre, last ws = Some t
                 ∧ Py_str.contains sep t = false
                 ∧ s = pre ++ String sep t
  end.
Proof.
  induction s as [|c s IH]; [done|].
  cbn [Py_str.split Py_str.contains].
  destruct (Ascii.eqb_spec c sep) as [->|Hne].
  - destruct (Py_str.split sep s) as [|w [|w2 ws]]; [done| |].
    + destruct IH as [Hno ->]. split; [done|]. by exists s, "".
    + destruct IH as [_ (t & pre & Hlast & Hno & ->)]. split; [done|].
      exists t, (String sep pre). by rewrite string_app_cons.
  - destruct (Py_str.split sep s) as [|w [|w2 ws]]; [done| |].
    + destruct IH as [Hno ->]. by rewrite Hno.
    + destruct IH as [Hyes (t & pre & Hlast & Hno & ->)]. split; [done|].
      exists t, (String c pre). by rewrite string_app_cons.
Qed.

(** The tag is the part of the image reference after its last colon, and
    the whole reference when it has no colon. *)
Lemma image_tag_spec (image : string) :
  getitem_last (Py_str.split ":" image) = Returned (K8s.image_tag image)
  ∧ Py_str.contains ":" (K8s.image_tag image) = false
  ∧ if Py_str.contains ":" image
    then ∃ pre, image = pre ++ ":" ++ K8s.image_tag image
    else K8s.image_tag image = image.
Proof.
  unfold K8s.image_tag, getitem_last.
  pose proof (split_spec ":" image) as Hsplit.
  destruct (Py_str.split ":" image) as [|w [|w2 ws]]; [done| |].
  - destruct Hsplit as [Hno ->]. cbn. by rewrite Hno.
  - destruct Hsplit as [Hyes (t & pre & Hlast & Hno & ->)].
    rewrite Hyes. rewrite last_cons, Hlast. cbn. eauto.
Qed.

(** The oracle of the end-to-end test leaves the two injected variables as
    the deriver made them. *)
Lemma updated_item_version (image : string) :
  test_e2e.updated_item image (K8s.env_var "VERSION" (K8s.image_tag image))
  = Returned (K8s.env_var "VERSION" (K8s.image_tag image)).
Proof.
  unfold test_e2e.updated_item, K8s.env_var. cbn.
  destruct (image_tag_spec image) as [-> _]. reflexivity.
Qed.

Lemma updated_item_image (image : string) :
  test_e2e.updated_item image (K8s.env_var "IMAGE" image)
  = Returned (K8s.env_var "IMAGE" image).
Proof. reflexivity. Qed.

(** C8: the first container of the derived Deployment carries the
    environment variables VERSION, whose value is the image tag (what
    follows the last colon of the image reference), and IMAGE, whose value
    is the full image reference; the oracle [_set_env] of the end-to-end
    test computes the same two values. *)
Theorem deployment_env_has_version_and_image (extra_env : list Json)
    (a : AppSpec) (selector labels : gmap string string) :
  let deployment := K8s.derive_deployment extra_env a selector labels in
  let tag := K8s.image_tag (image a) in
  (∃ env, K8s.container_env deployment = Returned (JList env)
          ∧ K8s.env_var "VERSION" tag ∈ env
          ∧ K8s.env_var "IMAGE" (image a) ∈ env)
  ∧ Py_str.contains ":" tag = false
  ∧ (if Py_str.contains ":" (image a)
     then ∃ pre, image a = pre ++ ":" ++ tag
     else tag = image a)
  ∧ test_e2e.updated_item (image a) (K8s.env_var "VERSION" tag)
    = Returned (K8s.env_var "VERSION" tag)
  ∧ test_e2e.updated_item (image a) (K8s.env_var "IMAGE" (image a))
    = Returned (K8s.env_var "IMAGE" (image a)).
Proof.
  intros deployment tag. split.
  - eexists. split; [reflexivity|]. split.
    + apply list_elem_of_here.
    + apply list_elem_of_further, list_elem_of_here.
  - destruct (image_tag_spec (image a)) as (_ & Hno & Hlast).
    auto using updated_item_version, updated_item_image.
Qed.

(** On the deployment derived for the sample application the oracle of the
    end-to-end test changes nothing, and the tag of its image is what the
    test expects. *)
Example set_env_on_sample_deployment :
  let a := sample_app "deployment_id_1" in
  let deployment :=
    K8s.derive_deployment [] a (K8s._make_selector a)
      (K8s._make_labels sample_config a) in
  test_e2e._set_env deployment (image a) = Returned deployment
  ∧ test_e2e._set_image deployment (image a) = Returned deployment
  ∧ K8s.container_env deployment
    = Returned (JList [K8s.env_var "VERSION" "123";
                       K8s.env_var "IMAGE" "finntech/application-name:123"]).
Proof. vm_compute. repeat split. Qed.

(** * Further properties of the code *)

(** ** The reporter *)

(** What an event leaves alone in the reporter. *)
Lemma publish_frame {S : Type} `{Session S}
    (w : World S) (ev : Lifecycle) (a : AppSpec) :
  _environment (self (publish ev a w).2) = _environment (self w)
  ∧ _infrastructure (self (publish ev a w).2) = _infrastructure (self w)
  ∧ _callback_urls (self (publish ev a w).2) = _callback_urls (self w).
Proof.
  rewrite publish_run.
  destruct ev; unfold _handle_started, _handle_success, _handle_failure;
    rewrite handle_signal_run;
    (destruct (_callback_urls (self w) !! deployment_id a) as [base_url|];
     [destruct (Py_str.truthy base_url)|]);
    try done;
    unfold post; destruct (session_post _ _) as [[e|] s']; done.
Qed.

(** The requests of an event, for a base URL that passes the guard. *)
Lemma notifications_registered (env infra base : string) (ev : Lifecycle) :
  base ≠ "" →
  Contract.notifications env infra (Some base) ev
  = [ {| req_url :=
           posixpath.join base
             [ "fiaas_" ++ env ++ "-" ++ infra ++ "_" ++ Contract.event_name ev;
               Contract.status ev ];
         req_json := JObj [("description", JStr "From fiaas-deploy-daemon")] |} ].
Proof. intros Hbase. by destruct base. Qed.

(** X1: a reporter that was just constructed has no registration: whatever
    the configuration and the session, every event returns normally and
    leaves the reporter and the wire as they are. *)
Theorem fresh_reporter_sends_nothing {S : Type} `{Session S}
    (config : Configuration) (session : S) (ev : Lifecycle) (a : AppSpec) :
  publish ev a (__init__ config session) = (Returned tt, __init__ config session).
Proof.
  rewrite publish_run.
  destruct ev; unfold _handle_started, _handle_success, _handle_failure;
    rewrite handle_signal_run; cbn; by rewrite lookup_empty.
Qed.

(** X2: registering twice for one deployment id leaves the reporter in the
    state the second registration alone would have produced. *)
Theorem last_registration_wins {S : Type} `{Session S}
    (w : World S) (d url1 url2 : string) :
  (register d url2 (register d url1 w).2).2 = (register d url2 w).2.
Proof.
  unfold register, py_modify, set_callback_urls. cbn.
  by rewrite insert_insert_eq.
Qed.

(** X3: registering a callback for another deployment id commutes with the
    handling of an event: the event has the same outcome, sends the same
    requests and leaves the same reporter whether the registration comes
    before or after it. *)
Theorem other_registration_commutes {S : Type} `{Session S}
    (w : World S) (d url : string) (ev : Lifecycle) (a : AppSpec) :
  d ≠ deployment_id a →
  publish ev a (register d url w).2
  = ((publish ev a w).1, (register d url (publish ev a w).2).2).
Proof.
  intros Hne. rewrite !publish_run.
  destruct ev; unfold _handle_started, _handle_success, _handle_failure;
    rewrite !handle_signal_run; cbn; rewrite lookup_insert_ne by done;
    (destruct (_callback_urls (self w) !! deployment_id a) as [base_url|];
     [destruct (Py_str.truthy base_url)|]);
    try done;
    unfold post; cbn; destruct (session_post _ _) as [[e|] s']; done.
Qed.

Lemma other_registration_commutes_witness :
  let w := registered_world answering_session "D1" "http://pipeline/cb" in
  publish started (sample_app "D1") (register "D2" "http://other/cb" w).2
  = ((publish started (sample_app "D1") w).1,
     (register "D2" "http://other/cb"
        (publish started (sample_app "D1") w).2).2).
Proof.
  cbv zeta. apply other_registration_commutes. discriminate.
Defined.

(** X4: an event puts at most one request on the wire, after the requests
    that were there; nothing that was sent is dropped or reordered. *)
Theorem event_sends_at_most_one {S : Type} `{Session S}
    (w : World S) (ev : Lifecycle) (a : AppSpec) :
  ∃ sent, wire (publish ev a w).2 = (wire w ++ sent)%list
          ∧ (length sent ≤ 1)%nat.
Proof.
  eexists. split; [apply publish_wire|].
  unfold Contract.notifications.
  destruct (_callback_urls (self w) !! deployment_id a) as [base_url|];
    [destruct (Py_str.truthy base_url)|]; cbn; lia.
Qed.

(** X5: the environment and the infrastructure of a reporter are those of
    the configuration it was constructed with, and no registration and no
    event changes them. *)
Theorem environment_is_fixed {S : Type} `{Session S}
    (config : Configuration) (session : S) (w : World S)
    (d url : string) (ev : Lifecycle) (a : AppSpec) :
  (_environment (self (__init__ config session)) = environment config
   ∧ _infrastructure (self (__init__ config session)) = infrastructure config)
  ∧ (_environment (self (register d url w).2) = _environment (self w)
     ∧ _infrastructure (self (register d url w).2) = _infrastructure (self w))
  ∧ (_environment (self (publish ev a w).2) = _environment (self w)
     ∧ _infrastructure (self (publish ev a w).2) = _infrastructure (self w)).
Proof.
  split; [done|]. split; [done|].
  destruct (publish_frame w ev a) as (? & ? & _). done.
Qed.

(** X6: for every event, the URL of the notification is the registered base
    URL, a separator unless the base URL ends with one, the task name
    fiaas_<environment>-<infrastructure>_<event name>, a separator and the
    status, whatever the environment and the infrastructure contain. *)
Theorem notification_url_shape {S : Type} `{Session S}
    (w : World S) (ev : Lifecycle) (a : AppSpec) (base : string) :
  _callback_urls (self w) !! deployment_id a = Some base →
  base ≠ "" →
  let event := match ev with
               | started => "deploy_started"
               | succeeded | failed => "deploy_end"
               end in
  let status := match ev with
                | started | succeeded => "success"
                | failed => "failure"
                end in
  let target := (if Py_str.endswith base "/" then base else base ++ "/")
                ++ "fiaas_" ++ _environment (self w) ++ "-"
                ++ _infrastructure (self w) ++ "_" ++ event ++ "/" ++ status in
  req_url <$> wire (publish ev a w).2 = ((req_url <$> wire w) ++ [target])%list.
Proof.
  intros Hreg Hbase event status target. subst target.
  rewrite publish_wire, Hreg, notifications_registered by done.
  rewrite fmap_app. f_equal. cbn [fmap list_fmap req_url]. f_equal.
  pose proof (join_task_status base
                (_environment (self w) ++ "-" ++ _infrastructure (self w) ++ "_")
                (Contract.event_name ev) (Contract.status ev) Hbase) as Hjoin.
  cbv zeta in Hjoin. rewrite !string_app_assoc in Hjoin.
  rewrite Hjoin by (by destruct ev).
  subst event status.
  destruct (Py_str.endswith base "/"); rewrite ?string_app_assoc;
    by destruct ev.
Qed.

Lemma notification_url_shape_witness :
  req_url <$> wire (publish failed (sample_app "D1")
                      (registered_world unreachable_session "D1"
                         "http://pipeline/cb/")).2
  = ["http://pipeline/cb/fiaas_test-diy_deploy_end/failure"].
Proof.
  pose proof (notification_url_shape
                (registered_world unreachable_session "D1" "http://pipeline/cb/")
                failed (sample_app "D1") "http://pipeline/cb/") as Hthm.
  cbv zeta in Hthm. rewrite Hthm.
  - vm_compute. reflexivity.
  - vm_compute. reflexivity.
  - discriminate.
Defined.

(** X7: with a registered callback URL, a started event followed by a
    succeeded (or failed) event puts two requests on the wire, in this
    order: the one for deploy_started with status success, then the one for
    deploy_end with status success (or failure); this holds whatever the
    session answers to the first request. *)
Theorem start_then_end {S : Type} `{Session S}
    (w : World S) (a : AppSpec) (base : string) (ev : Lifecycle) :
  _callback_urls (self w) !! deployment_id a = Some base →
  base ≠ "" →
  ev ≠ started →
  let rq := λ event status,
    {| req_url := posixpath.join base
                    [ "fiaas_" ++ _environment (self w) ++ "-"
                      ++ _infrastructure (self w) ++ "_" ++ event; status ];
       req_json := JObj [("description", JStr "From fiaas-deploy-daemon")] |} in
  let second := match ev with failed => "failure" | _ => "success" end in
  wire (publish ev a (publish started a w).2).2
  = (wire w ++ [rq "deploy_started" "success"; rq "deploy_end" second])%list.
Proof.
  intros Hreg Hbase Hev rq second.
  destruct (publish_frame w started a) as (Henv & Hinfra & Hurls).
  rewrite publish_wire, Henv, Hinfra, Hurls, Hreg.
  rewrite publish_wire, Hreg.
  rewrite !notifications_registered by done.
  rewrite <- app_assoc. by destruct ev.
Qed.

Lemma start_then_end_witness :
  wire (publish failed (sample_app "D1")
          (publish started (sample_app "D1")
             (registered_world unreachable_session "D1" "http://pipeline/cb")).2).2
  = [ {| req_url := "http://pipeline/cb/fiaas_test-diy_deploy_started/success";
         req_json := JObj [("description", JStr "From fiaas-deploy-daemon")] |};
      {| req_url := "http://pipeline/cb/fiaas_test-diy_deploy_end/failure";
         req_json := JObj [("description", JStr "From fiaas-deploy-daemon")] |} ].
Proof.
  pose proof (start_then_end
                (registered_world unreachable_session "D1" "http://pipeline/cb")
                (sample_app "D1") "http://pipeline/cb" failed) as Hthm.
  cbv zeta in Hthm. rewrite Hthm.
  - vm_compute. reflexivity.
  - vm_compute. reflexivity.
  - discriminate.
  - discriminate.
Defined.

(** X8: the reporter is connected to the signals deploy_started,
    deploy_success and deploy_failed only: sending any other signal reaches
    no handler, returns normally and changes nothing. *)
Theorem other_signals_are_ignored {S : Type} `{Session S}
    (w : World S) (signal_name : string) (a : AppSpec) :
  signal_name ≠ "deploy_started" →
  signal_name ≠ "deploy_success" →
  signal_name ≠ "deploy_failed" →
  send signal_name a w = (Returned tt, w).
Proof.
  intros H1 H2 H3. unfold send, connections. cbn [deliver].
  rewrite !(proj2 (String.eqb_neq _ _)) by done. reflexivity.
Qed.

Lemma other_signals_are_ignored_witness :
  let w := registered_world unreachable_session "D1" "http://pipeline/cb" in
  send "deploy_end" (sample_app "D1") w = (Returned tt, w).
Proof.
  cbv zeta. apply other_signals_are_ignored; discriminate.
Defined.

(** ** [_sanitize] *)

Lemma string_app_nil_r (s : string) : s ++ "" = s.
Proof.
  induction s as [|c s IH]; [reflexivity|].
  by rewrite string_app_cons, IH.
Qed.

Lemma sub_hyphen_cons (s : string) : "-" ++ s = String "-" s.
Proof. reflexivity. Qed.

Lemma sub_not_name_char_all (s : string) :
  Py_str2.all_chars Py_str2.name_char (Py_str2.sub_not_name_char "-" s) = true.
Proof.
  induction s as [|c s IH]; [reflexivity|].
  cbn [Py_str2.sub_not_name_char].
  destruct (Py_str2.name_char c) eqn:Hc.
  - cbn [Py_str2.all_chars]. by rewrite Hc, IH.
  - rewrite sub_hyphen_cons. cbn [Py_str2.all_chars]. by rewrite IH.
Qed.

Lemma sub_not_name_char_id (repl s : string) :
  Py_str2.all_chars Py_str2.name_char s = true →
  Py_str2.sub_not_name_char repl s = s.
Proof.
  induction s as [|c s IH]; [reflexivity|].
  cbn [Py_str2.all_chars Py_str2.sub_not_name_char].
  intros [Hc Hs]%andb_true_iff. by rewrite Hc, IH.
Qed.

Lemma name_chars_no_dot (s : string) :
  Py_str2.all_chars Py_str2.name_char s = true → Py_str.contains "." s = false.
Proof.
  induction s as [|c s IH]; [reflexivity|].
  cbn [Py_str2.all_chars Py_str.contains].
  intros [Hc Hs]%andb_true_iff. rewrite IH by done.
  destruct (Ascii.eqb_spec c ".") as [->|]; [discriminate Hc|reflexivity].
Qed.

(** Where there is no dot there is no occurrence of ".yml". *)
Lemma replace_yml_no_dot (s t : string) :
  Py_str.contains "." s = false →
  Py_str2.replace_from ".yml" "" 0 (s ++ t)
  = s ++ Py_str2.replace_from ".yml" "" 0 t.
Proof.
  induction s as [|c s IH]; [reflexivity|].
  cbn [Py_str.contains]. intros [Hc Hs]%orb_false_iff.
  rewrite !string_app_cons. cbn [Py_str2.replace_from String.prefix].
  destruct (ascii_dec "." c) as [<-|_]; [discriminate Hc|].
  by rewrite IH.
Qed.

Lemma replace_from_length (old new : string) (skip : nat) (s : string) :
  new = "" →
  (String.length (Py_str2.replace_from old new skip s) ≤ String.length s)%nat.
Proof.
  intros ->. revert skip.
  induction s as [|c s IH]; intros skip; [reflexivity|].
  cbn [Py_str2.replace_from]. destruct skip as [|n].
  - destruct (String.prefix old (String c s)).
    + change ("" ++ ?x) with x. specialize (IH (String.length old - 1)%nat).
      cbn [String.length]. lia.
    + specialize (IH 0%nat). cbn [String.length]. lia.
  - specialize (IH n). cbn [String.length]. lia.
Qed.

Lemma sub_not_name_char_length (s : string) :
  String.length (Py_str2.sub_not_name_char "-" s) = String.length s.
Proof.
  induction s as [|c s IH]; [reflexivity|].
  cbn [Py_str2.sub_not_name_char].
  destruct (Py_str2.name_char c); rewrite ?sub_hyphen_cons;
    cbn [String.length]; by rewrite <- IH.
Qed.

(** X9: whatever the fixture path, every character of the sanitized name is
    a lower-case letter, a digit or a hyphen, and the name is not longer
    than the path. *)
Theorem sanitize_name_chars (param : string) :
  Py_str2.all_chars Py_str2.name_char (e2e._sanitize param) = true
  ∧ (String.length (e2e._sanitize param) ≤ String.length param)%nat.
Proof.
  unfold e2e._sanitize. split; [apply sub_not_name_char_all|].
  rewrite sub_not_name_char_length. by apply replace_from_length.
Qed.

(** X10: sanitizing is idempotent: a sanitized name is left as it is. *)
Theorem sanitize_idempotent (param : string) :
  e2e._sanitize (e2e._sanitize param) = e2e._sanitize param.
Proof.
  pose proof (sub_not_name_char_all (Py_str2.replace param ".yml" "")) as Hall.
  unfold e2e._sanitize at 1. fold (e2e._sanitize param) in Hall |- *.
  unfold Py_str2.replace.
  rewrite <- (string_app_nil_r (e2e._sanitize param)) at 1.
  rewrite replace_yml_no_dot by by apply name_chars_no_dot.
  cbn [Py_str2.replace_from]. rewrite string_app_nil_r.
  by apply sub_not_name_char_id.
Qed.

(** X11: a path that ends with the extension .yml and has no other dot
    loses exactly the extension: its name is the name of the stem, in which
    every character outside [-a-z0-9] has become a hyphen. *)
Theorem sanitize_drops_extension (stem : string) :
  Py_str.contains "." stem = false →
  e2e._sanitize (stem ++ ".yml") = Py_str2.sub_not_name_char "-" stem
  ∧ e2e._sanitize stem = Py_str2.sub_not_name_char "-" stem.
Proof.
  intros Hdot. unfold e2e._sanitize, Py_str2.replace. split.
  - rewrite replace_yml_no_dot by done.
    change (Py_str2.replace_from ".yml" "" 0 ".yml") with "".
    by rewrite string_app_nil_r.
  - rewrite <- (string_app_nil_r stem) at 1.
    rewrite replace_yml_no_dot by done.
    cbn [Py_str2.replace_from]. by rewrite string_app_nil_r.
Qed.

Lemma sanitize_drops_extension_witness :
  e2e._sanitize "v2/data/examples/host.yml" = "v2-data-examples-host".
Proof.
  pose proof (sanitize_drops_extension "v2/data/examples/host") as Hthm.
  change ("v2/data/examples/host" ++ ".yml")
    with "v2/data/examples/host.yml" in Hthm.
  destruct Hthm as [-> _].
  - vm_compute. reflexivity.
  - vm_compute. reflexivity.
Defined.

(** ** Dicts and subscripts *)

Lemma out_bind_returned {A B} (m : Outcome A) (k : A → Outcome B) (b : B) :
  out_bind m k = Returned b → ∃ a, m = Returned a ∧ k a = Returned b.
Proof. destruct m as [a|e]; [eauto|discriminate]. Qed.

Ltac out_inv H :=
  let x := fresh "x" in
  let Hx := fresh "H" x in
  apply out_bind_returned in H as (x & Hx & H).

Lemma dict_get_set_eq (k : string) (v : Json) (items : list (string * Json)) :
  Dict.get k (Dict.set k v items) = Some v.
Proof.
  induction items as [|[k' v'] items IH]; cbn.
  - by rewrite String.eqb_refl.
  - destruct (String.eqb_spec k' k) as [->|Hne]; cbn.
    + by rewrite String.eqb_refl.
    + by rewrite (proj2 (String.eqb_neq _ _) Hne).
Qed.

Lemma dict_get_set_ne (k k2 : string) (v : Json) (items : list (string * Json)) :
  k2 ≠ k → Dict.get k2 (Dict.set k v items) = Dict.get k2 items.
Proof.
  intros Hne. induction items as [|[k' v'] items IH]; cbn.
  - by rewrite (proj2 (String.eqb_neq k k2)).
  - destruct (String.eqb_spec k' k) as [->|Hne']; cbn.
    + by rewrite (proj2 (String.eqb_neq k k2)).
    + by rewrite IH.
Qed.

Lemma dict_set_same (k : string) (v : Json) (items : list (string * Json)) :
  Dict.get k items = Some v → Dict.set k v items = items.
Proof.
  induction items as [|[k' v'] items IH]; cbn; [done|].
  destruct (String.eqb_spec k' k) as [->|Hne].
  - by intros [= ->].
  - intros Hget. by rewrite IH.
Qed.

Lemma dict_set_set (k : string) (v v' : Json) (items : list (string * Json)) :
  Dict.set k v (Dict.set k v' items) = Dict.set k v items.
Proof.
  induction items as [|[k' v''] items IH]; cbn.
  - by rewrite String.eqb_refl.
  - destruct (String.eqb_spec k' k) as [->|Hne]; cbn.
    + by rewrite String.eqb_refl.
    + by rewrite (proj2 (String.eqb_neq _ _) Hne), IH.
Qed.

Lemma dict_get_remove_eq (k : string) (items : list (string * Json)) :
  Dict.get k (dict_remove k items) = None.
Proof.
  induction items as [|[k' v'] items IH]; cbn; [done|].
  destruct (String.eqb_spec k' k) as [->|Hne]; cbn; [done|].
  by rewrite (proj2 (String.eqb_neq _ _) Hne).
Qed.

Lemma dict_get_remove_ne (k k2 : string) (items : list (string * Json)) :
  k2 ≠ k → Dict.get k2 (dict_remove k items) = Dict.get k2 items.
Proof.
  intros Hne. induction items as [|[k' v'] items IH]; cbn; [done|].
  destruct (String.eqb_spec k' k) as [->|Hne']; cbn.
  - by rewrite (proj2 (String.eqb_neq k k2)).
  - by rewrite IH.
Qed.

(** Reading back what an assignment wrote. *)
Lemma getitem_setitem (j j' : Json) (sub : Subscript) (v : Json) :
  setitem j sub v = Returned j' → getitem j' sub = Returned v.
Proof.
  destruct j as [s|[|x xs]|items], sub as [k|]; cbn; try discriminate.
  - by intros [= <-].
  - intros [= <-]. cbn. by rewrite dict_get_set_eq.
Qed.

(** An assignment under one key leaves the other keys as they are. *)
Lemma getitem_setitem_ne (j j' : Json) (k k2 : string) (v : Json) :
  setitem j (key k) v = Returned j' → k2 ≠ k →
  getitem j' (key k2) = getitem j (key k2).
Proof.
  destruct j as [s|[|x xs]|items]; cbn; try discriminate.
  intros [= <-] Hne. cbn. by rewrite dict_get_set_ne.
Qed.

(** Writing back what a subscript holds changes nothing. *)
Lemma setitem_getitem (j x : Json) (sub : Subscript) :
  getitem j sub = Returned x → setitem j sub x = Returned j.
Proof.
  destruct j as [s|[|y ys]|items], sub as [k|]; cbn; try discriminate.
  - by intros [= ->].
  - destruct (Dict.get k items) as [v|] eqn:Hget; [|discriminate].
    intros [= ->]. by rewrite dict_set_same.
Qed.

Lemma setitem_setitem (j j' : Json) (sub : Subscript) (v v' : Json) :
  setitem j sub v' = Returned j' → setitem j' sub v = setitem j sub v.
Proof.
  destruct j as [s|[|y ys]|items], sub as [k|]; cbn; try discriminate.
  - by intros [= <-].
  - intros [= <-]. cbn. by rewrite dict_set_set.
Qed.

Lemma get_path_app (j : Json) (p q : list Subscript) :
  get_path j (p ++ q) = (x ←ₒ get_path j p; get_path x q).
Proof.
  revert j. induction p as [|sub p IH]; intros j; [reflexivity|].
  cbn. destruct (getitem j sub) as [x|e]; [|reflexivity]. apply IH.
Qed.

(** [with_path] reads along the path, runs [f] there, and the result is
    what the path holds afterwards. *)
Lemma with_path_returned (j j' : Json) (p : list Subscript)
    (f : Json → Outcome Json) :
  with_path j p f = Returned j' →
  ∃ x x', get_path j p = Returned x ∧ f x = Returned x'
          ∧ get_path j' p = Returned x'.
Proof.
  revert j j'. induction p as [|sub p IH]; intros j j' Hrun; cbn in *.
  - eauto.
  - out_inv Hrun. out_inv Hrun.
    destruct (IH _ _ Hx0) as (y & y' & Hy & Hf & Hy').
    exists y, y'. rewrite Hx. cbn. split; [done|]. split; [done|].
    by rewrite (getitem_setitem _ _ _ _ Hrun).
Qed.

Lemma with_path_raised (j : Json) (p : list Subscript)
    (f : Json → Outcome Json) (e : Exn) :
  get_path j p = Raised e → with_path j p f = Raised e.
Proof.
  revert j. induction p as [|sub p IH]; intros j; cbn; [discriminate|].
  destruct (getitem j sub) as [x|e']; cbn; [|done].
  intros Hx. by rewrite (IH _ Hx).
Qed.

(** A change under one key of the document leaves its other keys alone. *)
Lemma with_path_other_key (j j' : Json) (k k2 : string) (p : list Subscript)
    (f : Json → Outcome Json) :
  with_path j (key k :: p) f = Returned j' → k2 ≠ k →
  getitem j' (key k2) = getitem j (key k2).
Proof.
  cbn. intros Hrun Hne. out_inv Hrun. out_inv Hrun.
  by apply (getitem_setitem_ne _ _ _ _ _ Hrun).
Qed.

Lemma set_path_with_path (j : Json) (p : list Subscript) (last : Subscript)
    (v : Json) :
  set_path j p last v = with_path j p (λ x, setitem x last v).
Proof.
  revert j. induction p as [|sub p IH]; intros j; cbn; [reflexivity|].
  destruct (getitem j sub) as [x|e]; cbn; [|reflexivity]. by rewrite IH.
Qed.

(** Round trip: after [j[p][last] = v], [j[p][last]] is [v]. *)
Lemma get_path_set_path (j j' : Json) (p : list Subscript) (last : Subscript)
    (v : Json) :
  set_path j p last v = Returned j' → get_path j' (p ++ [last]) = Returned v.
Proof.
  rewrite set_path_with_path. intros Hrun.
  destruct (with_path_returned _ _ _ _ Hrun) as (x & x' & Hx & Hset & Hx').
  rewrite get_path_app, Hx'. cbn.
  by rewrite (getitem_setitem _ _ _ _ Hset).
Qed.

(** Frame: [j[p][k] = v] leaves [j[p][k2]] as it is for another key. *)
Lemma get_path_set_path_ne (j j' : Json) (p : list Subscript) (k k2 : string)
    (v : Json) :
  set_path j p (key k) v = Returned j' → k2 ≠ k →
  get_path j' (p ++ [key k2]) = get_path j (p ++ [key k2]).
Proof.
  rewrite set_path_with_path. intros Hrun Hne.
  destruct (with_path_returned _ _ _ _ Hrun) as (x & x' & Hx & Hset & Hx').
  rewrite !get_path_app, Hx, Hx'. cbn.
  by rewrite (getitem_setitem_ne _ _ _ _ _ Hset).
Qed.

Lemma set_path_raised (j : Json) (p : list Subscript) (last : Subscript)
    (v : Json) (e : Exn) :
  get_path j p = Raised e → set_path j p last v = Raised e.
Proof. rewrite set_path_with_path. apply with_path_raised. Qed.

(** Assigning again what is there changes nothing. *)
Lemma with_path_fixpoint (j : Json) (p : list Subscript)
    (f : Json → Outcome Json) (x : Json) :
  get_path j p = Returned x → f x = Returned x → with_path j p f = Returned j.
Proof.
  revert j. induction p as [|sub p IH]; intros j; cbn.
  - by intros [= ->].
  - destruct (getitem j sub) as [y|e] eqn:Hy; cbn; [|discriminate].
    intros Hx Hf. rewrite (IH _ Hx Hf). cbn. by apply setitem_getitem.
Qed.

Lemma set_path_again (j j' : Json) (p : list Subscript) (last : Subscript)
    (v : Json) :
  set_path j p last v = Returned j' → set_path j' p last v = Returned j'.
Proof.
  rewrite !set_path_with_path. intros Hrun.
  destruct (with_path_returned _ _ _ _ Hrun) as (x & x' & Hx & Hset & Hx').
  apply (with_path_fixpoint _ _ _ x'); [done|].
  rewrite (setitem_setitem _ _ _ _ _ Hset), <- Hset.
  symmetry. rewrite <- (setitem_setitem x x' last v v Hset). done.
Qed.

Lemma setitem_after_getitem (j x v : Json) (sub : Subscript) :
  getitem j sub = Returned x → ∃ j', setitem j sub v = Returned j'.
Proof.
  destruct j as [s|[|y ys]|items], sub as [k|]; cbn; try discriminate; eauto.
Qed.

(** When [with_path] raises, the error is the one of the lookup along the
    path or the one of [f]. *)
Lemma with_path_raised_inv (j : Json) (p : list Subscript)
    (f : Json → Outcome Json) (e : Exn) :
  with_path j p f = Raised e →
  get_path j p = Raised e ∨ ∃ x, get_path j p = Returned x ∧ f x = Raised e.
Proof.
  revert j. induction p as [|sub p IH]; intros j; cbn; [eauto|].
  destruct (getitem j sub) as [x|e'] eqn:Hx; cbn; [|by left].
  destruct (with_path x p f) as [x'|e'] eqn:Hw; cbn.
  - destruct (setitem_after_getitem j x x' sub Hx) as [j' ->]. discriminate.
  - intros [= ->]. by apply IH.
Qed.

(** ** The setters of the end-to-end test *)

(** X12: when [_set_image] returns, the image of the first container of the
    document is the image given, the environment of the container is as
    before, and a second call changes nothing; when it raises, the error is
    the one of the lookup of the first container, or the one of the
    assignment to what is found there. *)
Theorem set_image_round_trip (d : Json) (image : string) :
  match test_e2e._set_image d image with
  | Returned d' =>
      get_path d' (test_e2e.container0 ++ [key "image"]) = Returned (JStr image)
      ∧ get_path d' (test_e2e.container0 ++ [key "env"])
        = get_path d (test_e2e.container0 ++ [key "env"])
      ∧ test_e2e._set_image d' image = Returned d'
  | Raised e =>
      get_path d test_e2e.container0 = Raised e
      ∨ ∃ c, get_path d test_e2e.container0 = Returned c
             ∧ setitem c (key "image") (JStr image) = Raised e
  end.
Proof.
  unfold test_e2e._set_image.
  destruct (set_path d test_e2e.container0 (key "image") (JStr image))
    as [d'|e] eqn:Hset.
  - split; [by eapply get_path_set_path|].
    split; [by apply (get_path_set_path_ne _ _ _ _ _ _ Hset)|].
    by eapply set_path_again.
  - rewrite set_path_with_path in Hset. by apply with_path_raised_inv in Hset.
Qed.

(** X13: when [_set_labels] returns, the label fiaas/version of the document
    is the tag of the image, which has no colon, the label
    fiaas/deployment_id is the deployment id given, and every other label is
    as before. *)
Theorem set_labels_round_trip (d d' : Json) (image dep_id other : string) :
  e2e._set_labels d image dep_id = Returned d' →
  other ≠ "fiaas/version" → other ≠ "fiaas/deployment_id" →
  get_path d' (e2e.metadata_labels ++ [key "fiaas/version"])
  = Returned (JStr (K8s.image_tag image))
  ∧ Py_str.contains ":" (K8s.image_tag image) = false
  ∧ get_path d' (e2e.metadata_labels ++ [key "fiaas/deployment_id"])
    = Returned (JStr dep_id)
  ∧ get_path d' (e2e.metadata_labels ++ [key other])
    = get_path d (e2e.metadata_labels ++ [key other]).
Proof.
  unfold e2e._set_labels. intros Hrun Ho1 Ho2.
  destruct (image_tag_spec image) as (Htag & Hcolon & _).
  rewrite Htag in Hrun. cbn [out_bind] in Hrun. out_inv Hrun.
  split; [|split; [done|split]].
  - rewrite (get_path_set_path_ne _ _ _ _ _ _ Hrun) by done.
    by eapply get_path_set_path.
  - by eapply get_path_set_path.
  - rewrite (get_path_set_path_ne _ _ _ _ _ _ Hrun) by done.
    by apply (get_path_set_path_ne _ _ _ _ _ _ Hx).
Qed.

Lemma set_labels_round_trip_witness :
  ∃ d', e2e._set_labels sample_deployment "finntech/application-name:321"
          "deployment_id_2" = Returned d'
        ∧ get_path d' (e2e.metadata_labels ++ [key "fiaas/version"])
          = Returned (JStr "321")
        ∧ get_path d' (e2e.metadata_labels ++ [key "app"])
          = Returned (JStr "application-name").
Proof.
  destruct (e2e._set_labels sample_deployment "finntech/application-name:321"
              "deployment_id_2") as [d'|e] eqn:Hrun;
    [|vm_compute in Hrun; discriminate Hrun].
  exists d'. split; [reflexivity|].
  destruct (set_labels_round_trip sample_deployment d'
              "finntech/application-name:321" "deployment_id_2" "app" Hrun)
    as (Hv & _ & _ & Ho); [discriminate|discriminate|].
  split.
  - rewrite Hv. vm_compute. reflexivity.
  - rewrite Ho. vm_compute. reflexivity.
Defined.

(** X14: [_set_labels] needs the labels of the metadata to be there: when
    the lookup of metadata.labels raises (no metadata, no labels in it), the
    call raises the same error and nothing is set. *)
Theorem set_labels_needs_labels (d : Json) (image dep_id : string) (e : Exn) :
  get_path d e2e.metadata_labels = Raised e →
  e2e._set_labels d image dep_id = Raised e.
Proof.
  intros Hget. unfold e2e._set_labels.
  destruct (image_tag_spec image) as (-> & _).
  cbn [out_bind]. by rewrite (set_path_raised _ _ _ _ _ Hget).
Qed.

Lemma set_labels_needs_labels_witness :
  e2e._set_labels (JObj [("kind", JStr "Service")]) "image:1" "D1"
  = Raised (KeyError "metadata").
Proof. apply set_labels_needs_labels. vm_compute. reflexivity. Defined.

(** X15: when [_set_service_type] returns, the type of the spec is the
    service type given and the other fields of the spec are as before; when
    the document has no spec, it raises the error of that lookup. *)
Theorem set_service_type_round_trip (d : Json) (service_type other : string) :
  other ≠ "type" →
  match e2e._set_service_type d service_type with
  | Returned d' =>
      get_path d' [key "spec"; key "type"] = Returned (JStr service_type)
      ∧ get_path d' [key "spec"; key other] = get_path d [key "spec"; key other]
  | Raised e =>
      getitem d (key "spec") = Raised e
      ∨ ∃ s, getitem d (key "spec") = Returned s
             ∧ setitem s (key "type") (JStr service_type) = Raised e
  end.
Proof.
  intros Hother. unfold e2e._set_service_type.
  destruct (set_path d [key "spec"] (key "type") (JStr service_type))
    as [d'|e] eqn:Hset.
  - split; [by eapply (get_path_set_path _ _ [key "spec"])|].
    by apply (get_path_set_path_ne _ _ [key "spec"] _ _ _ Hset).
  - rewrite set_path_with_path in Hset.
    apply with_path_raised_inv in Hset as [Hget|(s & Hget & Hs)]; cbn in Hget.
    + left. by destruct (getitem d (key "spec")).
    + right. exists s. by destruct (getitem d (key "spec")) as [s'|]; simplify_eq.
Qed.

Lemma set_service_type_round_trip_witness :
  match e2e._set_service_type sample_deployment "NodePort" with
  | Returned d' =>
      get_path d' [key "spec"; key "type"] = Returned (JStr "NodePort")
      ∧ get_path d' [key "spec"; key "selector"]
        = get_path sample_deployment [key "spec"; key "selector"]
  | Raised e =>
      getitem sample_deployment (key "spec") = Raised e
      ∨ ∃ s, getitem sample_deployment (key "spec") = Returned s
             ∧ setitem s (key "type") (JStr "NodePort") = Raised e
  end.
Proof. apply set_service_type_round_trip. discriminate. Defined.

(** ** [_set_env] *)

Lemma out_mapM_Forall2 {A B} (f : A → Outcome B) (l : list A) (l' : list B) :
  out_mapM f l = Returned l' → Forall2 (λ x y, f x = Returned y) l l'.
Proof.
  revert l'. induction l as [|x l IH]; intros l' Hrun; cbn in Hrun.
  - injection Hrun as <-. constructor.
  - out_inv Hrun. out_inv Hrun. injection Hrun as <-.
    constructor; [done|by apply IH].
Qed.

Lemma out_mapM_fixpoint {A} (f : A → Outcome A) (l : list A) :
  Forall (λ x, f x = Returned x) l → out_mapM f l = Returned l.
Proof.
  induction 1 as [|x l Hx _ IH]; cbn; [done|]. by rewrite Hx, IH.
Qed.

Lemma out_mapM_raised {A B} (f : A → Outcome B) (pre post : list A) (x : A)
    (e : Exn) :
  Forall (λ y, ∃ y', f y = Returned y') pre → f x = Raised e →
  out_mapM f (pre ++ x :: post) = Raised e.
Proof.
  intros Hpre Hx. induction Hpre as [|y pre [y' Hy] _ IH]; cbn.
  - by rewrite Hx.
  - by rewrite Hy, IH.
Qed.

Lemma updated_item_spec (image : string) (item item' : Json) :
  test_e2e.updated_item image item = Returned item' →
  env_item_updated image item item'
  ∧ test_e2e.updated_item image item' = Returned item'.
Proof.
  unfold test_e2e.updated_item, env_item_updated.
  destruct (image_tag_spec image) as (-> & _).
  destruct item as [s|[|x xs]|items]; cbn; try discriminate.
  destruct (Dict.get "name" items) as [n|] eqn:Hn; cbn; [|discriminate].
  assert (Hvi : json_eq_str n "VERSION" = true → json_eq_str n "IMAGE" = false).
  { destruct n as [x| |]; cbn; try done.
    intros ->%String.eqb_eq. reflexivity. }
  destruct (json_eq_str n "VERSION") eqn:Hv; cbn.
  - rewrite dict_get_set_ne, Hn by done. cbn. rewrite Hvi by done.
    intros [= <-]. cbn.
    repeat (rewrite ?dict_set_set, ?(dict_get_set_ne "value" "name"), ?Hn, ?Hv, ?Hvi by done;
            cbn).
    split; [|done]. exists n. rewrite Hv, dict_get_set_eq. done.
  - rewrite Hn. cbn. destruct (json_eq_str n "IMAGE") eqn:Hi; cbn.
    + intros [= <-]. cbn.
      repeat (rewrite ?dict_set_set, ?(dict_get_set_ne "value" "name"), ?Hn, ?Hv, ?Hi by done;
              cbn).
      split; [|done]. exists n. rewrite Hv, Hi, dict_get_set_eq. done.
    + intros [= <-]. cbn. rewrite Hn. cbn. rewrite Hv. cbn. rewrite Hn. cbn.
      rewrite Hi. split; [|done]. exists n. by rewrite Hv, Hi.
Qed.

Lemma set_env_returned (d d' : Json) (image : string) :
  test_e2e._set_env d image = Returned d' →
  ∃ env updated,
    get_path d (test_e2e.container0 ++ [key "env"]) = Returned env
    ∧ out_mapM (test_e2e.updated_item image) (env_items env) = Returned updated
    ∧ set_path d test_e2e.container0 (key "env") (JList updated) = Returned d'.
Proof.
  unfold test_e2e._set_env. intros Hrun. out_inv Hrun.
  exists x. destruct x as [[|c s]|items|[|kv items]]; try discriminate.
  - exists []. done.
  - out_inv Hrun. exists x. done.
  - exists []. done.
Qed.

(** X16: when [_set_env] returns, the environment of the first container is
    a list with one item for each item it had, in the same order and with
    the same name; the value of an item named VERSION is the tag of the
    image, the value of an item named IMAGE is the image, and an item of
    any other name is unchanged. *)
Theorem set_env_updates (d d' : Json) (image : string) :
  test_e2e._set_env d image = Returned d' →
  ∃ env env',
    get_path d (test_e2e.container0 ++ [key "env"]) = Returned env
    ∧ get_path d' (test_e2e.container0 ++ [key "env"]) = Returned (JList env')
    ∧ Forall2 (env_item_updated image) (env_items env) env'.
Proof.
  intros Hrun.
  destruct (set_env_returned _ _ _ Hrun) as (env & updated & Henv & Hmap & Hset).
  exists env, updated. split; [done|]. split; [by eapply get_path_set_path|].
  apply out_mapM_Forall2 in Hmap.
  eapply Forall2_impl; [exact Hmap|].
  intros x y Hxy. by apply updated_item_spec.
Qed.

Lemma set_env_updates_witness :
  ∃ d' env',
    test_e2e._set_env sample_deployment "finntech/application-name:321"
    = Returned d'
    ∧ get_path d' (test_e2e.container0 ++ [key "env"]) = Returned (JList env')
    ∧ Forall2 (env_item_updated "finntech/application-name:321")
        [K8s.env_var "VERSION" "123";
         K8s.env_var "IMAGE" "finntech/application-name:123"] env'.
Proof.
  destruct (test_e2e._set_env sample_deployment "finntech/application-name:321")
    as [d'|e] eqn:Hrun; [|vm_compute in Hrun; discriminate Hrun].
  destruct (set_env_updates _ _ _ Hrun) as (env & env' & Henv & Henv' & Hall).
  exists d', env'. split; [reflexivity|]. split; [exact Henv'|].
  vm_compute in Henv. injection Henv as <-. exact Hall.
Defined.

(** X17: [_set_env] is idempotent: on the document it returns, a second
    call with the same image returns that document. *)
Theorem set_env_idempotent (d d' : Json) (image : string) :
  test_e2e._set_env d image = Returned d' →
  test_e2e._set_env d' image = Returned d'.
Proof.
  intros Hrun.
  destruct (set_env_returned _ _ _ Hrun) as (env & updated & Henv & Hmap & Hset).
  assert (Hfix : Forall (λ x, test_e2e.updated_item image x = Returned x)
                   updated).
  { apply out_mapM_Forall2 in Hmap. clear Hset.
    induction Hmap as [|x y l l' Hxy _ IH]; [constructor|].
    constructor; [|done]. by apply updated_item_spec in Hxy as [_ ?]. }
  unfold test_e2e._set_env.
  rewrite (get_path_set_path _ _ _ _ _ Hset). cbn [out_bind].
  rewrite out_mapM_fixpoint by done.
  cbn [out_bind]. by eapply set_path_again.
Qed.

Lemma set_env_idempotent_witness :
  ∃ d', test_e2e._set_env sample_deployment "finntech/application-name:321"
        = Returned d'
        ∧ test_e2e._set_env d' "finntech/application-name:321" = Returned d'.
Proof.
  destruct (test_e2e._set_env sample_deployment "finntech/application-name:321")
    as [d'|e] eqn:Hrun; [|vm_compute in Hrun; discriminate Hrun].
  exists d'. split; [reflexivity|]. by apply (set_env_idempotent sample_deployment).
Defined.

(** X18: [_set_env], unlike [_set_image], does not create what is missing:
    when the first container has no environment the call raises the error
    of that lookup, and when the environment is a list in which an item has
    no name, after items that the loop accepts, it raises the error of the
    lookup of the name. *)
Theorem set_env_needs_names (d : Json) (image : string) (e : Exn) :
  let env := get_path d (test_e2e.container0 ++ [key "env"]) in
  (env = Raised e
   ∨ ∃ pre item post,
       env = Returned (JList (pre ++ item :: post))
       ∧ Forall (λ y, ∃ y', test_e2e.updated_item image y = Returned y') pre
       ∧ getitem item (key "name") = Raised e) →
  test_e2e._set_env d image = Raised e.
Proof.
  intros env [Henv|(pre & item & post & Henv & Hpre & Hitem)];
    subst env; unfold test_e2e._set_env; rewrite Henv; cbn [out_bind];
    [done|].
  rewrite (out_mapM_raised _ pre post item e); [done|done|].
  unfold test_e2e.updated_item. by rewrite Hitem.
Qed.

Lemma set_env_needs_names_witness :
  test_e2e._set_env
    (JObj [("spec", JObj [("template", JObj [("spec", JObj [("containers",
       JList [JObj [("env", JList [K8s.env_var "IMAGE" "a:1";
                                   JObj [("value", JStr "x")]])]])])])])])
    "a:2"
  = Raised (KeyError "name").
Proof.
  apply set_env_needs_names. right.
  exists [K8s.env_var "IMAGE" "a:1"], (JObj [("value", JStr "x")]), [].
  split; [vm_compute; reflexivity|]. split.
  - constructor; [|constructor]. eexists. vm_compute. reflexivity.
  - vm_compute. reflexivity.
Defined.

(** ** [_ensure_key_missing] *)

(** The path [d[k][k1]...[kn]] that [_ensure_key_missing(d, k, k1, ..., kn)]
    is about. *)
Lemma ensure_path_cons (k : string) (more : list string) :
  key <$> (k :: more) = key k :: (key <$> more).
Proof. reflexivity. Qed.

Lemma delitem_returned (d d' : Json) (k : string) :
  delitem d k = Returned d' →
  ∃ items, d = JObj items ∧ d' = JObj (dict_remove k items).
Proof.
  destruct d as [s|xs|items]; cbn; try discriminate.
  destruct (Dict.get k items); [|discriminate]. intros [= <-]. eauto.
Qed.

(** When [_ensure_key_missing] returns, its document was a dict, and so is
    the document it leaves. *)
Lemma ensure_key_missing_dict (d d' : Json) (k : string) (more : list string) :
  e2e._ensure_key_missing d k more = Returned d' →
  ∃ items items', d = JObj items ∧ d' = JObj items'.
Proof.
  destruct more as [|k' more]; cbn.
  - destruct d as [s|xs|items]; cbn; try discriminate.
    destruct (Dict.get k items); intros [= <-]; eauto.
  - destruct d as [s|[|x xs]|items]; cbn; try discriminate.
    destruct (Dict.get k items) as [x|]; cbn.
    + destruct (e2e._ensure_key_missing x k' more); cbn; [|discriminate].
      intros [= <-]. eauto.
    + intros [= <-]. eauto.
Qed.

(** X19: [_ensure_key_missing] never raises a [KeyError]: it returns, or it
    raises the [TypeError] of a subscript or a [del] on something that is
    not a dict. *)
Theorem ensure_key_missing_no_key_error (d : Json) (k : string)
    (more : list string) :
  match e2e._ensure_key_missing d k more with
  | Returned _ => True
  | Raised e => e = TypeError
  end.
Proof.
  revert d k. induction more as [|k' more IH]; intros d k; cbn.
  - destruct d as [s|xs|items]; cbn; try done.
    by destruct (Dict.get k items).
  - destruct d as [s|[|x xs]|items]; cbn; try done.
    destruct (Dict.get k items) as [x|]; cbn; [|done].
    specialize (IH x k').
    by destruct (e2e._ensure_key_missing x k' more).
Qed.

(** What is missing stays missing: a lookup that raised a [KeyError] before
    [_ensure_key_missing] raises one after it. *)
Lemma ensure_key_missing_keeps_missing (d d' : Json) (k : string)
    (more : list string) (path : list Subscript) :
  e2e._ensure_key_missing d k more = Returned d' →
  path_missing d path → path_missing d' path.
Proof.
  unfold path_missing.
  revert d d' k path. induction more as [|k' more IH];
    intros d d' k path Hrun [k0 Hmiss].
  - cbn in Hrun. destruct d as [s|xs|items]; cbn in Hrun; try discriminate.
    destruct (Dict.get k items) as [v|] eqn:Hk; injection Hrun as <-; [|eauto].
    destruct path as [|[k2|] path]; cbn in *; try discriminate.
    destruct (String.eqb_spec k2 k) as [->|Hne].
    + rewrite dict_get_remove_eq. cbn. eauto.
    + rewrite dict_get_remove_ne by done. eauto.
  - cbn in Hrun. destruct d as [s|[|x xs]|items]; cbn in Hrun;
      try discriminate.
    destruct (Dict.get k items) as [x|] eqn:Hk; cbn in Hrun;
      [|injection Hrun as <-; eauto].
    out_inv Hrun. injection Hrun as <-.
    destruct path as [|[k2|] path]; cbn in *; try discriminate.
    destruct (String.eqb_spec k2 k) as [->|Hne].
    + rewrite dict_get_set_eq. rewrite Hk in Hmiss. cbn in *.
      apply (IH x x0 k'); eauto.
    + rewrite dict_get_set_ne by done. eauto.
Qed.

Lemma ensure_key_missing_gone (d d' : Json) (k : string)
    (more : list string) :
  e2e._ensure_key_missing d k more = Returned d' →
  path_missing d' (key <$> (k :: more)).
Proof.
  unfold path_missing.
  revert d d' k. induction more as [|k' more IH]; intros d d' k Hrun.
  - cbn in Hrun. destruct d as [s|xs|items]; cbn in Hrun; try discriminate.
    destruct (Dict.get k items) as [v|] eqn:Hk; injection Hrun as <-; cbn.
    + rewrite dict_get_remove_eq. cbn. eauto.
    + rewrite Hk. cbn. eauto.
  - cbn in Hrun. destruct d as [s|[|x xs]|items]; cbn in Hrun;
      try discriminate.
    destruct (Dict.get k items) as [x|] eqn:Hk; cbn in Hrun.
    + out_inv Hrun. injection Hrun as <-.
      rewrite ensure_path_cons. cbn [get_path getitem].
      rewrite dict_get_set_eq. cbn [out_bind]. by apply (IH x).
    + injection Hrun as <-. rewrite ensure_path_cons. cbn [get_path getitem].
      rewrite Hk. cbn. eauto.
Qed.

(** When the path is missing already, nothing changes. *)
Lemma ensure_key_missing_noop (d : Json) (k : string) (more : list string) :
  path_missing d (key <$> (k :: more)) →
  e2e._ensure_key_missing d k more = Returned d.
Proof.
  unfold path_missing.
  revert d k. induction more as [|k' more IH]; intros d k [k0 Hmiss].
  - cbn in *. destruct d as [s|[|x xs]|items]; cbn in *; try discriminate.
    by destruct (Dict.get k items).
  - rewrite ensure_path_cons in Hmiss. cbn [get_path] in Hmiss. cbn.
    destruct d as [s|[|x xs]|items]; cbn in *; try discriminate.
    destruct (Dict.get k items) as [x|] eqn:Hk; cbn in *; [|done].
    rewrite (IH x k') by eauto. cbn. by rewrite dict_set_same.
Qed.

(** X20: when [_ensure_key_missing(d, k, k1, ..., kn)] returns, the lookup
    [d[k][k1]...[kn]] raises a [KeyError] in the document it leaves, and a
    second call with the same keys returns that document as it is. *)
Theorem ensure_key_missing_removes (d d' : Json) (k : string)
    (more : list string) :
  e2e._ensure_key_missing d k more = Returned d' →
  (∃ k0, get_path d' (key <$> (k :: more)) = Raised (KeyError k0))
  ∧ e2e._ensure_key_missing d' k more = Returned d'.
Proof.
  intros Hrun.
  assert (Hgone : path_missing d' (key <$> (k :: more)))
    by by apply ensure_key_missing_gone in Hrun.
  split; [exact Hgone|].
  by apply ensure_key_missing_noop.
Qed.

Lemma ensure_key_missing_removes_witness :
  ∃ d' k0,
    e2e._ensure_key_missing sample_deployment "spec"
      ["template"; "metadata"; "labels"] = Returned d'
    ∧ get_path d' (key <$> ["spec"; "template"; "metadata"; "labels"])
      = Raised (KeyError k0)
    ∧ e2e._ensure_key_missing d' "spec" ["template"; "metadata"; "labels"]
      = Returned d'.
Proof.
  destruct (e2e._ensure_key_missing sample_deployment "spec"
              ["template"; "metadata"; "labels"]) as [d'|e] eqn:Hrun;
    [|vm_compute in Hrun; discriminate Hrun].
  destruct (ensure_key_missing_removes _ _ _ _ Hrun) as [[k0 Hk0] Hagain].
  exists d', k0. split; [reflexivity|]. split; [exact Hk0|exact Hagain].
Defined.

Lemma ensure_key_missing_other_key (d d' : Json) (k k2 : string)
    (more : list string) :
  e2e._ensure_key_missing d k more = Returned d' → k2 ≠ k →
  getitem d' (key k2) = getitem d (key k2).
Proof.
  intros Hrun Hne. destruct more as [|k' more]; cbn in Hrun.
  - destruct d as [s|xs|items]; cbn in Hrun; try discriminate.
    destruct (Dict.get k items) as [v|]; injection Hrun as <-; [|done].
    cbn. by rewrite dict_get_remove_ne.
  - destruct d as [s|[|x xs]|items]; cbn in Hrun; try discriminate.
    destruct (Dict.get k items) as [x|]; cbn in Hrun;
      [|by injection Hrun as <-].
    out_inv Hrun. injection Hrun as <-. cbn. by rewrite dict_get_set_ne.
Qed.

(** X21: [_ensure_key_missing(d, k, ...)] only touches what is under the key
    [k] of the document: every lookup that starts with another key gives
    what it gave before, and a lookup that raised a [KeyError] before still
    raises one. *)
Theorem ensure_key_missing_frame (d d' : Json) (k k2 : string)
    (more : list string) (path missing : list Subscript) :
  e2e._ensure_key_missing d k more = Returned d' →
  k2 ≠ k →
  get_path d' (key k2 :: path) = get_path d (key k2 :: path)
  ∧ (path_missing d missing → path_missing d' missing).
Proof.
  intros Hrun Hne. split.
  - cbn. by rewrite (ensure_key_missing_other_key _ _ _ _ _ Hrun).
  - by apply ensure_key_missing_keeps_missing with (k := k) (more := more).
Qed.

Lemma ensure_key_missing_frame_witness :
  ∃ d', e2e._ensure_key_missing sample_deployment "metadata" ["name"]
        = Returned d'
        ∧ get_path d' (key "spec" :: test_e2e.container0)
          = get_path sample_deployment (key "spec" :: test_e2e.container0).
Proof.
  destruct (e2e._ensure_key_missing sample_deployment "metadata" ["name"])
    as [d'|e] eqn:Hrun; [|vm_compute in Hrun; discriminate Hrun].
  exists d'. split; [reflexivity|].
  apply (ensure_key_missing_frame sample_deployment d' "metadata" "spec"
           ["name"] test_e2e.container0 [] Hrun).
  discriminate.
Defined.

(** ** [_assert_k8s_resource_matches] *)

Lemma ensure_key_missing_step (d d' : Json) (k : string) (more : list string)
    (fields : list (list string)) :
  e2e._ensure_key_missing d k more = Returned d' →
  Forall (λ f, path_missing d (key <$> f)) fields →
  Forall (λ f, path_missing d' (key <$> f)) ((k :: more) :: fields).
Proof.
  intros Hrun Hfields. constructor; [by apply ensure_key_missing_gone in Hrun|].
  eapply Forall_impl; [exact Hfields|]. intros f.
  by apply ensure_key_missing_keeps_missing with (k := k) (more := more).
Qed.

Lemma ensure_key_missing_if_step (c : bool) (d d' : Json) (k : string)
    (more : list string) (fields : list (list string)) :
  (if c then e2e._ensure_key_missing d k more else Returned d) = Returned d' →
  Forall (λ f, path_missing d (key <$> f)) fields →
  Forall (λ f, path_missing d' (key <$> f)) fields
  ∧ (c = true → path_missing d' (key <$> (k :: more))).
Proof.
  destruct c; intros Hrun Hfields.
  - apply (ensure_key_missing_step _ _ _ _ _ Hrun) in Hfields.
    apply Forall_cons in Hfields as [? ?]. done.
  - injection Hrun as <-. done.
Qed.

(** What lies under another key of the document is not reached by a change
    under [spec]. *)
Lemma with_path_keeps_missing (d d' : Json) (k : string) (p : list Subscript)
    (f : Json → Outcome Json) (fields : list (list string)) :
  with_path d (key k :: p) f = Returned d' →
  Forall (λ fld, ∃ k2 rest, fld = k2 :: rest ∧ k2 ≠ k) fields →
  Forall (λ fld, path_missing d (key <$> fld)) fields →
  Forall (λ fld, path_missing d' (key <$> fld)) fields.
Proof.
  intros Hrun Hheads Hfields.
  induction Hheads as [|fld fields (k2 & rest & -> & Hne) _ IH];
    [constructor|].
  apply Forall_cons in Hfields as [[k0 Hfld] Hfields].
  constructor; [|by apply IH].
  exists k0. rewrite ensure_path_cons in *. cbn [get_path] in *.
  by rewrite (with_path_other_key _ _ _ _ _ _ Hrun Hne).
Qed.

Lemma generated_fields_not_spec :
  Forall (λ fld, ∃ k2 rest, fld = k2 :: rest ∧ k2 ≠ "spec") generated_fields.
Proof. repeat constructor; eexists _, _; split; done. Qed.

(** The first seven steps of the cleaning. *)
Lemma clean_actual_generated (r : e2e.Resource) (a' : Json) :
  e2e.clean_actual r = Returned a' →
  Forall (λ f, path_missing a' (key <$> f)) generated_fields
  ∧ (e2e.resource_kind r = e2e.Deployment →
     Forall (λ f, path_missing a' (key <$> f)) generated_pod_annotations).
Proof.
  unfold e2e.clean_actual. intros Hrun.
  out_inv Hrun. out_inv Hrun. out_inv Hrun. out_inv Hrun. out_inv Hrun.
  out_inv Hrun. out_inv Hrun. out_inv Hrun. out_inv Hrun.
  pose proof (Forall_nil_2 (λ f, path_missing (e2e.as_dict r) (key <$> f)))
    as H0.
  apply (ensure_key_missing_step _ _ _ _ _ Hx) in H0.
  apply (ensure_key_missing_step _ _ _ _ _ Hx0) in H0.
  apply (ensure_key_missing_step _ _ _ _ _ Hx1) in H0.
  apply (ensure_key_missing_step _ _ _ _ _ Hx2) in H0.
  apply (ensure_key_missing_step _ _ _ _ _ Hx3) in H0.
  apply (ensure_key_missing_step _ _ _ _ _ Hx4) in H0.
  apply (ensure_key_missing_step _ _ _ _ _ Hx5) in H0.
  apply Forall_reverse in H0.
  change (reverse _) with generated_fields in H0.
  apply (ensure_key_missing_if_step _ _ _ _ _ _ Hx6) in H0 as [H0 _].
  assert (Hdep : Forall (λ f, path_missing x7 (key <$> f)) generated_fields
                 ∧ (e2e.resource_kind r = e2e.Deployment →
                    Forall (λ f, path_missing x7 (key <$> f))
                      generated_pod_annotations)).
  { destruct (e2e.is_kind (e2e.resource_kind r) e2e.Deployment) eqn:Hkind.
    - out_inv Hx7. out_inv Hx7. out_inv Hx7.
      pose proof (Forall_nil_2 (λ f, path_missing x6 (key <$> f))) as H1.
      apply (ensure_key_missing_step _ _ _ _ _ Hx8) in H1.
      apply (ensure_key_missing_step _ _ _ _ _ Hx9) in H1.
      apply (ensure_key_missing_step _ _ _ _ _ Hx10) in H1.
      apply (ensure_key_missing_step _ _ _ _ _ Hx7) in H1.
      apply Forall_reverse in H1.
      split; [|by intros _].
      eapply Forall_impl; [exact H0|]. intros f Hf.
      eapply ensure_key_missing_keeps_missing; [exact Hx7|].
      eapply ensure_key_missing_keeps_missing; [exact Hx10|].
      eapply ensure_key_missing_keeps_missing; [exact Hx9|].
      eapply ensure_key_missing_keeps_missing; [exact Hx8|]. done.
    - injection Hx7 as <-. split; [done|].
      intros Hk. rewrite Hk in Hkind. discriminate. }
  destruct Hdep as [Hgen Hpod].
  destruct (e2e.is_kind (e2e.resource_kind r) e2e.Service) eqn:Hsvc.
  - out_inv Hrun. split.
    + apply (with_path_keeps_missing _ _ _ _ _ _ Hrun generated_fields_not_spec).
      eapply Forall_impl; [exact Hgen|]. intros f.
      by apply ensure_key_missing_keeps_missing with (k := "spec")
                                                      (more := ["clusterIP"]).
    + intros Hk. rewrite Hk in Hsvc. discriminate.
  - injection Hrun as <-. done.
Qed.

Lemma set_path_other_key (j j' : Json) (k k2 : string) (p : list Subscript)
    (last : Subscript) (v : Json) :
  set_path j (key k :: p) last v = Returned j' → k2 ≠ k →
  getitem j' (key k2) = getitem j (key k2).
Proof. rewrite set_path_with_path. apply with_path_other_key. Qed.

Lemma get_path_other_key (j j' : Json) (k2 : string) (p : list Subscript) :
  getitem j' (key k2) = getitem j (key k2) →
  get_path j' (key k2 :: p) = get_path j (key k2 :: p).
Proof. cbn. by intros ->. Qed.

Lemma delitem_spec (d d' : Json) (k : string) :
  delitem d k = Returned d' →
  path_missing d' [key k]
  ∧ (∃ v, getitem d (key k) = Returned v)
  ∧ ∀ k2, k2 ≠ k → getitem d' (key k2) = getitem d (key k2).
Proof.
  destruct d as [s|xs|items]; cbn; try discriminate.
  destruct (Dict.get k items) as [v|] eqn:Hk; [|discriminate].
  intros [= <-]. split; [|split].
  - exists k. cbn. by rewrite dict_get_remove_eq.
  - eauto.
  - intros k2 Hne. cbn. by rewrite dict_get_remove_ne.
Qed.

Lemma set_labels_spec (d d' : Json) (image dep_id : string) :
  e2e._set_labels d image dep_id = Returned d' →
  get_path d' (e2e.metadata_labels ++ [key "fiaas/version"])
  = Returned (JStr (K8s.image_tag image))
  ∧ get_path d' (e2e.metadata_labels ++ [key "fiaas/deployment_id"])
    = Returned (JStr dep_id)
  ∧ ∀ k2, k2 ≠ "metadata" → getitem d' (key k2) = getitem d (key k2).
Proof.
  unfold e2e._set_labels. intros Hrun.
  destruct (image_tag_spec image) as (Htag & _).
  rewrite Htag in Hrun. cbn [out_bind] in Hrun. out_inv Hrun.
  split; [|split].
  - rewrite (get_path_set_path_ne _ _ _ _ _ _ Hrun) by done.
    by eapply get_path_set_path.
  - by eapply get_path_set_path.
  - intros k2 Hne.
    rewrite (set_path_other_key _ _ _ _ _ _ _ Hrun Hne).
    by apply (set_path_other_key _ _ _ _ _ _ _ Hx).
Qed.

(** The steps that a Deployment goes through. *)
Lemma prepare_deployment_spec (e e' : Json) (image dep_id : string) :
  (e1 ←ₒ test_e2e._set_image e image;
   e2 ←ₒ test_e2e._set_env e1 image;
   with_path e2 [key "spec"; key "template"]
     (λ t, e2e._set_labels t image dep_id)) = Returned e' →
  get_path e' (test_e2e.container0 ++ [key "image"]) = Returned (JStr image)
  ∧ get_path e' ([key "spec"; key "template"] ++ e2e.metadata_labels
                 ++ [key "fiaas/version"])
    = Returned (JStr (K8s.image_tag image))
  ∧ ∀ k2, k2 ≠ "spec" → getitem e' (key k2) = getitem e (key k2).
Proof.
  intros Hrun. out_inv Hrun. out_inv Hrun.
  rename x into e1, x0 into e2.
  pose proof Hx as Himage. unfold test_e2e._set_image in Himage.
  destruct (set_env_returned _ _ _ Hx0) as (env & updated & _ & _ & Henv).
  destruct (with_path_returned _ _ _ _ Hrun) as (t & t' & Ht & Hlabels & Ht').
  destruct (set_labels_spec _ _ _ _ Hlabels) as (Hversion & _ & Hother).
  split; [|split].
  - change (test_e2e.container0 ++ [key "image"])%list
      with ([key "spec"; key "template"]
            ++ [key "spec"; key "containers"; index0; key "image"])%list.
    rewrite get_path_app, Ht'. cbn [out_bind].
    rewrite (get_path_other_key t t') by by apply Hother.
    assert (Hsame : get_path e2 ([key "spec"; key "template"]
                      ++ [key "spec"; key "containers"; index0; key "image"])
                    = Returned (JStr image)).
    { change (get_path e2 (test_e2e.container0 ++ [key "image"])
              = Returned (JStr image)).
      rewrite (get_path_set_path_ne _ _ _ _ _ _ Henv) by done.
      by eapply get_path_set_path. }
    rewrite get_path_app, Ht in Hsame. exact Hsame.
  - rewrite get_path_app, Ht'. cbn [out_bind]. exact Hversion.
  - intros k2 Hne.
    rewrite (with_path_other_key _ _ _ _ _ _ Hrun Hne).
    rewrite (set_path_other_key _ _ _ _ _ _ _ Henv Hne).
    by apply (set_path_other_key _ _ _ _ _ _ _ Himage).
Qed.

Lemma json_eq_str_true (j : Json) (s : string) :
  json_eq_str j s = true ↔ j = JStr s.
Proof.
  destruct j as [x| |]; cbn; [|done..].
  rewrite String.eqb_eq. split; [by intros ->|by intros [= ->]].
Qed.

(** X22: the expected document that reaches the comparison has lost its
    apiVersion and its kind (both have to be there), and its labels
    fiaas/version and fiaas/deployment_id are the tag of the image and the
    deployment id; for a Deployment the image of the first container is the
    image and the pod template has the label fiaas/version too, for a
    Service the type of the spec is the service type. *)
Theorem expected_is_prepared (e e' : Json) (image service_type dep_id : string) :
  e2e.prepare_expected e image service_type dep_id = Returned e' →
  (∃ kind version,
     getitem e (key "kind") = Returned kind
     ∧ getitem e (key "apiVersion") = Returned version
     ∧ (kind = JStr "Deployment" →
        get_path e' (test_e2e.container0 ++ [key "image"]) = Returned (JStr image)
        ∧ get_path e' ([key "spec"; key "template"] ++ e2e.metadata_labels
                       ++ [key "fiaas/version"])
          = Returned (JStr (K8s.image_tag image)))
     ∧ (kind = JStr "Service" →
        get_path e' [key "spec"; key "type"] = Returned (JStr service_type)))
  ∧ path_missing e' [key "apiVersion"]
  ∧ path_missing e' [key "kind"]
  ∧ get_path e' (e2e.metadata_labels ++ [key "fiaas/version"])
    = Returned (JStr (K8s.image_tag image))
  ∧ get_path e' (e2e.metadata_labels ++ [key "fiaas/deployment_id"])
    = Returned (JStr dep_id).
Proof.
  unfold e2e.prepare_expected. intros Hrun.
  out_inv Hrun. rename x into e1, Hx into Hlabels.
  out_inv Hrun. rename x into kind, Hx into Hkind.
  out_inv Hrun. rename x into e2, Hx into Hdep.
  out_inv Hrun. rename x into kind2, Hx into Hkind2.
  out_inv Hrun. rename x into e3, Hx into Hsvc.
  out_inv Hrun. rename x into e4, Hx into Hdel1.
  destruct (set_labels_spec _ _ _ _ Hlabels) as (Hversion & Hdepid & Hother1).
  destruct (delitem_spec _ _ _ Hdel1) as (Hgone1 & [version Hapi] & Hother4).
  destruct (delitem_spec _ _ _ Hrun) as (Hgone2 & _ & Hother5).
  (* what the two branches leave alone *)
  assert (Hdep_frame : ∀ k2, k2 ≠ "spec" → getitem e2 (key k2) = getitem e1 (key k2)).
  { destruct (json_eq_str kind "Deployment"); [|by injection Hdep as <-].
    by apply prepare_deployment_spec in Hdep as (_ & _ & ?). }
  assert (Hsvc_frame : ∀ k2, k2 ≠ "spec" → getitem e3 (key k2) = getitem e2 (key k2)).
  { destruct (json_eq_str kind2 "Service"); [|by injection Hsvc as <-].
    intros k2 Hne. unfold e2e._set_service_type in Hsvc.
    by apply (set_path_other_key _ _ _ _ _ _ _ Hsvc). }
  assert (Hkinds : kind2 = kind).
  { rewrite Hdep_frame in Hkind2 by done. congruence. }
  subst kind2.
  assert (Hmeta : ∀ p, get_path e' (key "metadata" :: p)
                       = get_path e1 (key "metadata" :: p)).
  { intros p. apply get_path_other_key.
    rewrite Hother5, Hother4, Hsvc_frame, Hdep_frame by done. done. }
  assert (Hspec : ∀ p, get_path e' (key "spec" :: p)
                       = get_path e3 (key "spec" :: p)).
  { intros p. apply get_path_other_key. by rewrite Hother5, Hother4. }
  split; [|split; [|split; [done|split]]].
  - exists kind, version. split; [by rewrite <- Hother1|].
    split.
    { rewrite <- Hother1, <- Hdep_frame, <- Hsvc_frame by done. done. }
    split.
    + intros ->. cbn in Hdep, Hsvc. injection Hsvc as <-.
      apply prepare_deployment_spec in Hdep as (Himage & Htemplate & _).
      change (test_e2e.container0 ++ [key "image"])%list
        with (key "spec" :: [key "template"; key "spec"; key "containers";
                             index0; key "image"]).
      change ([key "spec"; key "template"] ++ e2e.metadata_labels
              ++ [key "fiaas/version"])%list
        with (key "spec" :: [key "template"; key "metadata"; key "labels";
                             key "fiaas/version"]).
      rewrite !Hspec. done.
    + intros ->. cbn in Hdep, Hsvc. injection Hdep as <-.
      rewrite (Hspec [key "type"]). unfold e2e._set_service_type in Hsvc.
      by apply (get_path_set_path _ _ [key "spec"]) in Hsvc.
  - destruct Hgone1 as [k0 Hk0]. exists k0. cbn in *.
    by rewrite Hother5.
  - change (e2e.metadata_labels ++ [key "fiaas/version"])%list
      with (key "metadata" :: [key "labels"; key "fiaas/version"]).
    by rewrite Hmeta.
  - change (e2e.metadata_labels ++ [key "fiaas/deployment_id"])%list
      with (key "metadata" :: [key "labels"; key "fiaas/deployment_id"]).
    by rewrite Hmeta.
Qed.

Lemma expected_is_prepared_witness :
  ∃ e', e2e.prepare_expected sample_expected "finntech/application-name:321"
          "ClusterIP" "deployment_id_2" = Returned e'
        ∧ path_missing e' [key "kind"]
        ∧ get_path e' (e2e.metadata_labels ++ [key "fiaas/version"])
          = Returned (JStr "321")
        ∧ get_path e' (test_e2e.container0 ++ [key "image"])
          = Returned (JStr "finntech/application-name:321").
Proof.
  destruct (e2e.prepare_expected sample_expected
              "finntech/application-name:321" "ClusterIP" "deployment_id_2")
    as [e'|x] eqn:Hrun; [|vm_compute in Hrun; discriminate Hrun].
  destruct (expected_is_prepared _ _ _ _ _ Hrun)
    as ((kind & version & Hkind & _ & Hdep & _) & _ & Hgone & Hversion & _).
  exists e'. split; [reflexivity|]. split; [exact Hgone|]. split.
  - rewrite Hversion. vm_compute. reflexivity.
  - apply Hdep. vm_compute in Hkind. by injection Hkind as <-.
Defined.

(** X23: [_assert_k8s_resource_matches] compares the prepared expected
    document with the cleaned actual document, and the actual document that
    reaches the comparison has none of the fields the cluster generates:
    creationTimestamp, generation, resourceVersion, selfLink and uid of the
    metadata, the revision annotation, the status, and for a Deployment the
    four init-container annotations of the pod template.  An error in the
    preparation of the expected document comes before one in the cleaning. *)
Theorem assert_compares_cleaned_documents
    (assert_dicts : Json → Json → Outcome unit) (r : e2e.Resource)
    (e : Json) (image service_type dep_id : string) :
  match e2e.prepare_expected e image service_type dep_id with
  | Raised x =>
      e2e._assert_k8s_resource_matches assert_dicts r e image service_type dep_id
      = Raised x
  | Returned e' =>
      match e2e.clean_actual r with
      | Raised x =>
          e2e._assert_k8s_resource_matches assert_dicts r e image service_type
            dep_id = Raised x
      | Returned a' =>
          e2e._assert_k8s_resource_matches assert_dicts r e image service_type
            dep_id = assert_dicts a' e'
          ∧ Forall (λ f, path_missing a' (key <$> f)) generated_fields
          ∧ if e2e.is_kind (e2e.resource_kind r) e2e.Deployment
            then Forall (λ f, path_missing a' (key <$> f))
                   generated_pod_annotations
            else True
      end
  end.
Proof.
  unfold e2e._assert_k8s_resource_matches.
  destruct (e2e.prepare_expected e image service_type dep_id) as [e'|x];
    [|reflexivity].
  cbn [out_bind].
  destruct (e2e.clean_actual r) as [a'|x] eqn:Hclean; [|reflexivity].
  cbn [out_bind]. split; [reflexivity|].
  destruct (clean_actual_generated _ _ Hclean) as [Hgen Hpod].
  split; [exact Hgen|].
  destruct (e2e.resource_kind r); cbn; try done. by apply Hpod.
Qed.

Lemma drop_node_ports_spec (ports ports' : Json) :
  e2e.drop_node_ports ports = Returned ports' →
  match ports' with
  | JList items => Forall (λ port, path_missing port [key "nodePort"]) items
  | _ => True
  end.
Proof.
  unfold e2e.drop_node_ports.
  destruct ports as [[|c s]|items|[|kv items]]; try discriminate.
  - by intros [= <-].
  - intros Hrun. out_inv Hrun. injection Hrun as <-.
    apply out_mapM_Forall2 in Hx.
    induction Hx as [|port port' l l' Hport _ IH]; constructor; [|done].
    by apply ensure_key_missing_gone in Hport.
  - by intros [= <-].
Qed.

(** X24: for a Service, the actual document that reaches the comparison has
    no clusterIP in its spec and no nodePort in any of the ports of its
    spec; the spec has to have ports, as the lookup of the ports is not
    guarded. *)
Theorem service_actual_is_cleaned (r : e2e.Resource) (a' : Json) :
  e2e.resource_kind r = e2e.Service →
  e2e.clean_actual r = Returned a' →
  path_missing a' [key "spec"; key "clusterIP"]
  ∧ ∃ ports, get_path a' [key "spec"; key "ports"] = Returned ports
             ∧ match ports with
               | JList items =>
                   Forall (λ port, path_missing port [key "nodePort"]) items
               | _ => True
               end.
Proof.
  unfold e2e.clean_actual. intros Hkind Hrun. rewrite Hkind in Hrun.
  do 9 out_inv Hrun. cbn [e2e.is_kind] in Hrun. out_inv Hrun.
  rename x8 into a, Hx8 into Hip.
  apply ensure_key_missing_gone in Hip as [k0 Hip].
  destruct (with_path_returned _ _ _ _ Hrun) as (ports & ports' & _ & Hdrop & Hports).
  split.
  - change (with_path a [key "spec"; key "ports"] e2e.drop_node_ports)
      with (x ←ₒ getitem a (key "spec");
            x' ←ₒ with_path x [key "ports"] e2e.drop_node_ports;
            setitem a (key "spec") x') in Hrun.
    apply out_bind_returned in Hrun as (s & Hs & Hrun).
    apply out_bind_returned in Hrun as (s' & Hs' & Hrun).
    exists k0. cbn [fmap list_fmap get_path] in Hip |- *.
    rewrite Hs in Hip. cbn [out_bind] in Hip.
    rewrite (getitem_setitem _ _ _ _ Hrun). cbn [out_bind].
    rewrite (with_path_other_key _ _ _ _ _ _ Hs') by done.
    destruct (getitem s (key "clusterIP")); [discriminate|done].
  - exists ports'. split; [done|]. by apply drop_node_ports_spec in Hdrop.
Qed.

Lemma service_actual_is_cleaned_witness :
  ∃ a', e2e.clean_actual sample_service = Returned a'
        ∧ path_missing a' [key "spec"; key "clusterIP"].
Proof.
  destruct (e2e.clean_actual sample_service) as [a'|x] eqn:Hrun;
    [|vm_compute in Hrun; discriminate Hrun].
  exists a'. split; [reflexivity|].
  by destruct (service_actual_is_cleaned sample_service a' eq_refl Hrun).
Defined.
